(** * Cart and catalog controllers of the MERN e-commerce backend

    A shallow embedding of the two Express controllers

    - the cart controller ([cartItemSchema], [getCart], [addToCart],
      [updateCart], [removeFromCart], [updateCartForUser] and the module's
      exports), and
    - [backend/controllers/productControllers.js] ([productSchema],
      [createProduct], [getProducts], [getProductById], [updateProduct],
      [deleteProduct], [getProductsByCategory]),

    together with the part of Joi, Mongoose and Express that the handlers
    rely on.  The libraries are not part of the repository; what is assumed
    about them is written next to each definition.

    - A request body is the JavaScript object delivered by the JSON body
      parser ([Js.object]).
    - JavaScript numbers are modelled by exact rationals ([Q]) and the two
      infinities; [item.quantity += quantity] is exact addition.
    - Mongoose documents are modelled twice: as stored ([CartItem],
      [Product]) and as loaded in memory ([CartDoc], [ItemDoc],
      [ProductDoc]), where a reference is an identifier or, after
      [populate], the referenced document or [null].
    - A handler is a function from the store to a response and a new store.
      An exception thrown inside [asyncHandler] is handed to [next]
      ([Next]).  Every store call may fail; the store records each call in
      a trace, so that a handler that does not touch the store returns it
      unchanged. *)

From Stdlib Require Import Ascii String QArith.
From stdpp Require Import gmap strings list.

Open Scope string_scope.
Open Scope list_scope.

(** ** JavaScript values *)

Module Js.

(** What [JSON.parse] can produce.  [JSON.parse("1e999")] is [Infinity],
    so the infinities are values a body can hold; [NaN] and [undefined]
    are not. *)
#[warnings="-register-all"] Inductive value :=
| Null
| Bool (b : bool)
| Num (q : Q)
| Infinite (negative : bool)
| Str (s : string)
| Arr (xs : list value)
| Obj (fields : list (string * value)).

(** An object lists its own keys in insertion order. *)
Definition object := list (string * value).

(** [o[k]]; [None] is [undefined]. *)
Fixpoint get (k : string) (o : object) : option value :=
  match o with
  | [] => None
  | (k', v) :: o' => if String.eqb k k' then Some v else get k o'
  end.

Definition has_key (k : string) (o : object) : bool :=
  match get k o with Some _ => true | None => false end.

(** Truthiness of a string ([if (search)]): only the empty string is
    falsy. *)
Definition truthy_string (s : string) : bool :=
  match s with EmptyString => false | _ => true end.

(** Truthiness of an array ([if (products)]): every object is truthy,
    the empty array included. *)
Definition truthy_array {A} (xs : list A) : bool := true.

Definition is_integer (q : Q) : bool :=
  (Z.rem (Qnum q) (Zpos (Qden q)) =? 0)%Z.

Definition is_positive (q : Q) : bool := (0 <? Qnum q)%Z.

Definition MAX_SAFE_INTEGER : Z := 9007199254740991.

Definition is_safe (q : Q) : bool :=
  Qle_bool (inject_Z (- MAX_SAFE_INTEGER)) q
  && Qle_bool q (inject_Z MAX_SAFE_INTEGER).

End Js.

(** ** Joi schemas

    The fragment of Joi used by the two controllers: [Joi.string()],
    [Joi.number()], the rules [integer()] and [positive()], [required()],
    [messages()], [Joi.object()] and [validate] with [abortEarly: false]
    and otherwise default preferences ([convert: true], unknown keys
    refused). *)

Module Joi.

Inductive type := TString | TNumber.
Inductive rule := RInteger | RPositive.

Record schema := {
  s_type : type;
  s_rules : list rule;
  s_required : bool;
  s_messages : list (String.string * String.string)
}.

Definition string : schema :=
  {| s_type := TString; s_rules := []; s_required := false; s_messages := [] |}.
Definition number : schema :=
  {| s_type := TNumber; s_rules := []; s_required := false; s_messages := [] |}.
Definition integer (s : schema) : schema :=
  {| s_type := s_type s; s_rules := s_rules s ++ [RInteger];
     s_required := s_required s; s_messages := s_messages s |}.
Definition positive (s : schema) : schema :=
  {| s_type := s_type s; s_rules := s_rules s ++ [RPositive];
     s_required := s_required s; s_messages := s_messages s |}.
Definition required (s : schema) : schema :=
  {| s_type := s_type s; s_rules := s_rules s;
     s_required := true; s_messages := s_messages s |}.
Definition messages (s : schema) (ms : list (String.string * String.string)) : schema :=
  {| s_type := s_type s; s_rules := s_rules s;
     s_required := s_required s; s_messages := ms ++ s_messages s |}.

(** [Joi.object({...})]: the keys in the order they are written. *)
Definition object_schema := list (String.string * schema).

Record detail := { code : String.string; message : String.string }.

Definition dquote : String.string := String (Ascii.ascii_of_nat 34) EmptyString.

(** The label of a key in a default message is the key in double quotes. *)
Definition label (k : String.string) : String.string := dquote +:+ k +:+ dquote.

Definition default_message (c k : String.string) : String.string :=
  label k +:+
  (if String.eqb c "any.required" then " is required"
   else if String.eqb c "string.base" then " must be a string"
   else if String.eqb c "string.empty" then " is not allowed to be empty"
   else if String.eqb c "number.base" then " must be a number"
   else if String.eqb c "number.infinity" then " cannot be infinity"
   else if String.eqb c "number.unsafe" then " must be a safe number"
   else if String.eqb c "number.integer" then " must be an integer"
   else if String.eqb c "number.positive" then " must be a positive number"
   else " is not allowed").

Fixpoint lookup_message (c : String.string) (ms : list (String.string * String.string))
  : option String.string :=
  match ms with
  | [] => None
  | (c', m) :: ms' => if String.eqb c c' then Some m else lookup_message c ms'
  end.

(** The error a schema reports for code [c] at key [k]: the message given
    with [messages()] when there is one, Joi's own otherwise. *)
Definition error (s : schema) (k c : String.string) : detail :=
  {| code := c;
     message := match lookup_message c (s_messages s) with
                | Some m => m
                | None => default_message c k
                end |}.

(** Outcome of converting a numeric string: the number, or the
    [number.unsafe] error Joi raises when the string does not survive the
    round trip through a double. *)
Inductive coerced := Converted (q : Q) | Unsafe.

Definition check_rule (s : schema) (k : String.string) (q : Q) (r : rule) : list detail :=
  match r with
  | RInteger => if Js.is_integer q then [] else [error s k "number.integer"]
  | RPositive => if Js.is_positive q then [] else [error s k "number.positive"]
  end.

Section Validate.

(** Joi's coercion of a string to a number under [convert: true]:
    [None] when the string is not a numeral.  It goes through
    [parseFloat] and is left as a parameter. *)
Variable coerce_number : String.string -> option coerced.

(** Validation of the value found at one key.  The result is the list of
    errors and the value to keep ([None] when the key stays undefined).
    As in Joi, an error of the base type ends the validation of the
    key, while the rules are all run and their errors collected. *)
Definition validate_key (k : String.string) (s : schema) (v : option Js.value)
  : list detail * option Js.value :=
  match s_type s, v with
  | _, None =>
      (if s_required s then [error s k "any.required"] else [], None)
  | TString, Some (Js.Str EmptyString) => ([error s k "string.empty"], v)
  | TString, Some (Js.Str _) => ([], v)
  | TString, Some _ => ([error s k "string.base"], v)
  | TNumber, Some (Js.Infinite _) => ([error s k "number.infinity"], v)
  | TNumber, Some (Js.Num q) =>
      if Js.is_safe q
      then (flat_map (check_rule s k q) (s_rules s), v)
      else ([error s k "number.unsafe"], v)
  | TNumber, Some (Js.Str str) =>
      match coerce_number str with
      | Some (Converted q) =>
          if Js.is_safe q
          then (flat_map (check_rule s k q) (s_rules s), Some (Js.Num q))
          else ([error s k "number.unsafe"], Some (Js.Num q))
      | Some Unsafe => ([error s k "number.unsafe"], v)
      | None => ([error s k "number.base"], v)
      end
  | TNumber, Some _ => ([error s k "number.base"], v)
  end.

(** The keys of the schema, in order. *)
Fixpoint validate_keys (sch : object_schema) (o : Js.object)
  : list detail * Js.object :=
  match sch with
  | [] => ([], [])
  | (k, s) :: sch' =>
      let '(es, v) := validate_key k s (Js.get k o) in
      let '(es', o') := validate_keys sch' o in
      (es ++ es', match v with Some x => (k, x) :: o' | None => o' end)
  end.

Definition in_schema (sch : object_schema) (k : String.string) : bool :=
  existsb (fun ks => String.eqb k (fst ks)) sch.

(** The keys of the object that the schema does not know. *)
Definition unknown_keys (sch : object_schema) (o : Js.object) : list detail :=
  flat_map (fun kv => if in_schema sch (fst kv) then []
                      else [error string (fst kv) "object.unknown"]) o.

Record result := { details : list detail; value : Js.object }.

(** [schema.validate(body, { abortEarly: false })].  [details] empty
    stands for [error === undefined]. *)
Definition validate (sch : object_schema) (o : Js.object) : result :=
  let '(es, v) := validate_keys sch o in
  {| details := es ++ unknown_keys sch o; value := v |}.

End Validate.

(** [error.details.map((err) => err.message)] *)
Definition messages_of (r : result) : list String.string := map message (details r).

End Joi.

(** ** The two schemas *)

Definition cartItemSchema : Joi.object_schema :=
  [ ("product",
     Joi.messages (Joi.required Joi.string)
       [ ("any.required", "Product ID is required") ]);
    ("quantity",
     Joi.messages (Joi.required (Joi.positive (Joi.integer Joi.number)))
       [ ("number.base", "Quantity must be a number");
         ("number.integer", "Quantity must be an integer");
         ("number.positive", "Quantity must be positive");
         ("any.required", "Quantity is required") ]) ].

Definition productSchema : Joi.object_schema :=
  [ ("name",
     Joi.messages (Joi.required Joi.string) [ ("any.required", "Name is required") ]);
    ("description",
     Joi.messages (Joi.required Joi.string) [ ("any.required", "Description is required") ]);
    ("price",
     Joi.messages (Joi.required Joi.number) [ ("any.required", "Price is required") ]);
    ("category",
     Joi.messages (Joi.required Joi.string) [ ("any.required", "Category is required") ]);
    ("stock",
     Joi.messages (Joi.required Joi.number) [ ("any.required", "Stock is required") ]);
    ("image", Joi.string);
    ("brand", Joi.string) ].

(** ** Regular expressions of the store

    [{ name: { $regex: search, $options: "i" } }] hands the search term to
    the store's regular-expression engine (PCRE).  The fragment modelled
    here has literal characters, the dot and a leading caret; a pattern
    with any other metacharacter is outside the fragment and [compile]
    answers [None].  Strings are sequences of bytes and case is folded on
    the ASCII letters. *)

Module Pcre.

Inductive atom := Lit (c : ascii) | Any.

Record regex := { anchored : bool; atoms : list atom }.

Definition metachars : string := "\^$.[]|()?*+{}".

Fixpoint mem (c : ascii) (s : string) : bool :=
  match s with
  | EmptyString => false
  | String d s' => Ascii.eqb c d || mem c s'
  end.

Definition is_meta (c : ascii) : bool := mem c metachars.

Fixpoint parse_atoms (s : string) : option (list atom) :=
  match s with
  | EmptyString => Some []
  | String c s' =>
      if Ascii.eqb c "."%char then cons Any <$> parse_atoms s'
      else if is_meta c then None
      else cons (Lit c) <$> parse_atoms s'
  end.

Definition compile (pattern : string) : option regex :=
  match pattern with
  | String "^"%char s' => (fun a => {| anchored := true; atoms := a |}) <$> parse_atoms s'
  | _ => (fun a => {| anchored := false; atoms := a |}) <$> parse_atoms pattern
  end.

Definition to_lower (c : ascii) : ascii :=
  let n := nat_of_ascii c in
  if (65 <=? n)%nat && (n <=? 90)%nat then ascii_of_nat (n + 32) else c.

Definition eq_caseless (c d : ascii) : bool := Ascii.eqb (to_lower c) (to_lower d).

Definition newline : ascii := ascii_of_nat 10.

Definition match_atom (a : atom) (d : ascii) : bool :=
  match a with
  | Lit c => eq_caseless c d
  | Any => negb (Ascii.eqb d newline)
  end.

(** The atoms match a prefix of the subject. *)
Fixpoint match_here (a : list atom) (s : string) : bool :=
  match a, s with
  | [], _ => true
  | _ :: _, EmptyString => false
  | x :: a', String d s' => match_atom x d && match_here a' s'
  end.

(** The atoms match somewhere in the subject. *)
Fixpoint search (a : list atom) (s : string) : bool :=
  match_here a s ||
  match s with
  | EmptyString => false
  | String _ s' => search a s'
  end.

(** A caseless, unanchored-by-default match, as [$options: "i"] asks. *)
Definition test (r : regex) (subject : string) : bool :=
  if anchored r then match_here (atoms r) subject else search (atoms r) subject.

End Pcre.

(** ** Case-insensitive substrings, as the specification words the search *)

Fixpoint lower (s : string) : string :=
  match s with
  | EmptyString => EmptyString
  | String c s' => String (Pcre.to_lower c) (lower s')
  end.

(** [term] occurs in [name] when case is ignored. *)
Definition occurs_caseless (term name : string) : Prop :=
  exists pre post, lower name = pre +:+ lower term +:+ post.

Fixpoint prefix_caseless (term name : string) : bool :=
  match term, name with
  | EmptyString, _ => true
  | String _ _, EmptyString => false
  | String c t', String d n' => Pcre.eq_caseless c d && prefix_caseless t' n'
  end.

Fixpoint contains_caseless (term name : string) : bool :=
  prefix_caseless term name ||
  match name with
  | EmptyString => false
  | String _ n' => contains_caseless term n'
  end.

(** ** The document store and the handlers *)

(** Mongoose's cast of a string of a request to an identifier; [None] is a
    failed cast.  [ObjectId.prototype.equals] on a string goes through the
    same reading of the string. *)
Class Cast (ObjectId : Type) := castObjectId : string -> option ObjectId.

(** Joi's conversion of a string to a number (see [Joi.validate_key]). *)
Class Coercion := coerce_number : string -> option Joi.coerced.

(** What a handler can throw: a failure of the store, a [TypeError] of
    JavaScript, and Mongoose's [CastError] and [ValidationError]. *)
Inductive Exn := StoreError | TypeError | CastError | ValidationError.

Inductive Collection := Carts | Products.

(** A round trip to the store, as recorded in the trace. *)
Inductive StoreOp := Read (c : Collection) | Write (c : Collection).

Section Controllers.

(** Identifiers are Mongoose [ObjectId]s.  [Category] and [User] documents
    belong to models that the controllers only resolve by reference. *)
Context {ObjectId : Type} `{Countable ObjectId}.
Context {Category User : Type}.
Context {driver : Cast ObjectId} {conversion : Coercion}.

(** *** Stored documents *)

(** Modelled from the spec: the item of a cart, declared in
    [models/cartModel.js], which is not among the sources.  An item holds a
    reference to a product and a quantity; a cart holds a reference to its
    user and a sequence of items. *)
Record CartItem := { product : ObjectId; quantity : Q }.

(** Modelled from the spec: the product, declared in
    [models/productModel.js], which is not among the sources, with the
    fields that [createProduct] writes. *)
Record Product := {
  _id : ObjectId;
  name : string;
  description : string;
  price : Q;
  category : ObjectId;
  stock : Q;
  image : option string;
  brand : option string
}.

(** The store.  There is one cart per user: the carts are keyed by their
    [user] reference.  The products are kept in the order of their
    creation.  [faults] says which of the coming store calls fail
    ([true]); [trace] lists the calls made so far.  Fields that the
    handlers never read (the [_id] of a cart, versions) are left out. *)
Record Db := {
  carts : gmap ObjectId (list CartItem);
  products : list Product;
  categories : gmap ObjectId Category;
  users : gmap ObjectId User;
  faults : list bool;
  trace : list StoreOp
}.

Definition set_carts (c : gmap ObjectId (list CartItem)) (db : Db) : Db :=
  {| carts := c; products := products db; categories := categories db;
     users := users db; faults := faults db; trace := trace db |}.

Definition set_products (ps : list Product) (db : Db) : Db :=
  {| carts := carts db; products := ps; categories := categories db;
     users := users db; faults := faults db; trace := trace db |}.

Definition set_faults (fs : list bool) (db : Db) : Db :=
  {| carts := carts db; products := products db; categories := categories db;
     users := users db; faults := fs; trace := trace db |}.

Definition log (op : StoreOp) (db : Db) : Db :=
  {| carts := carts db; products := products db; categories := categories db;
     users := users db; faults := faults db; trace := trace db ++ [op] |}.

(** *** Documents in memory

    A reference field of a loaded document holds the identifier, or,
    once populated, the referenced document; [populate] leaves [null]
    where the referenced document does not exist. *)
Inductive Ref (D : Type) :=
| Unpopulated (id : ObjectId)
| Populated (id : ObjectId) (doc : option D).
Arguments Unpopulated {D} id.
Arguments Populated {D} id doc.

Definition ref_id {D} (r : Ref D) : ObjectId :=
  match r with Unpopulated id => id | Populated id _ => id end.

Record ProductDoc := { doc_product : Product; doc_category : Ref Category }.

Record ItemDoc := { item_product : Ref ProductDoc; item_quantity : Q }.

Record CartDoc := { cart_user : Ref User; cart_items : list ItemDoc }.

(** *** Responses *)

Inductive Body :=
| BNull
| BErrors (errors : list string)
| BErrorList (error : list string)
| BError (error : string)
| BMessage (message : string)
| BCart (cart : CartDoc)
| BProduct (product : option ProductDoc)
| BProducts (count : nat) (products : list ProductDoc).

(** [res.status(s).json(body)], or the error handed to [next]. *)
Inductive Response :=
| Json (status : nat) (body : Body)
| Next (err : Exn).

(** *** Computations on the store that may throw *)

Definition M (A : Type) : Type := Db -> (Exn + A) * Db.

Definition ret {A} (a : A) : M A := fun db => (inr a, db).

Definition throw {A} (e : Exn) : M A := fun db => (inl e, db).

Definition bind {A B} (m : M A) (k : A -> M B) : M B :=
  fun db => match m db with
            | (inl e, db') => (inl e, db')
            | (inr a, db') => k a db'
            end.

Local Notation "'let*' x := m 'in' k" := (bind m (fun x => k))
  (at level 10, x name, m at level 100, k at level 200).

(** One call to the store: it is recorded, then fails if the store is
    at fault, and runs otherwise. *)
Definition call {A} (op : StoreOp) (f : Db -> A * Db) : M A :=
  fun db =>
    let db1 := log op db in
    match faults db1 with
    | true :: fs => (inl StoreError, set_faults fs db1)
    | false :: fs => let '(a, db2) := f (set_faults fs db1) in (inr a, db2)
    | [] => let '(a, db2) := f db1 in (inr a, db2)
    end.

Definition Handler : Type := Db -> Response * Db.

(** [asyncHandler(fn)]: a rejection of [fn] goes to [next]. *)
Definition asyncHandler (fn : M Response) : Handler :=
  fun db => match fn db with
            | (inr r, db') => (r, db')
            | (inl e, db') => (Next e, db')
            end.

(** *** Mongoose queries *)

(** [ObjectId.prototype.equals] against a string of the request. *)
Definition oid_equals (id : ObjectId) (s : string) : bool :=
  match castObjectId s with
  | Some id' => bool_decide (id = id')
  | None => false
  end.

Definition findProduct (db : Db) (id : ObjectId) : option Product :=
  List.find (fun p => bool_decide (_id p = id)) (products db).

Definition plain_product (p : Product) : ProductDoc :=
  {| doc_product := p; doc_category := Unpopulated (category p) |}.

(** [.populate("category")] *)
Definition populate_category (db : Db) (p : Product) : ProductDoc :=
  {| doc_product := p;
     doc_category := Populated (category p) (categories db !! category p) |}.

Definition plain_item (it : CartItem) : ItemDoc :=
  {| item_product := Unpopulated (product it); item_quantity := quantity it |}.

(** [.populate("items.product")], with the product's category resolved
    too when [deep]. *)
Definition populate_item (deep : bool) (db : Db) (it : CartItem) : ItemDoc :=
  {| item_product :=
       Populated (product it)
         ((if deep then populate_category db else plain_product)
            <$> findProduct db (product it));
     item_quantity := quantity it |}.

(** What a save writes for an item: the reference and the quantity. *)
Definition item_of_doc (d : ItemDoc) : CartItem :=
  {| product := ref_id (item_product d); quantity := item_quantity d |}.

(** [Cart.findOne({ user })] *)
Definition Cart_findOne (u : ObjectId) : M (option CartDoc) :=
  call (Read Carts) (fun db =>
    ((fun its => {| cart_user := Unpopulated u; cart_items := map plain_item its |})
       <$> carts db !! u, db)).

(** [Cart.findOne({ user }).populate({ path: "items.product", populate:
    { path: "category", model: "Category" } }).populate("user")] *)
Definition Cart_findOne_populated (u : ObjectId) : M (option CartDoc) :=
  call (Read Carts) (fun db =>
    ((fun its => {| cart_user := Populated u (users db !! u);
                    cart_items := map (populate_item true db) its |})
       <$> carts db !! u, db)).

(** [Cart.findOne({ user }).populate({ path: "user", select: "name email
    address phoneNumber " }).populate({ path: "items.product", populate:
    { path: "category" } })]; [select] keeps the selected fields of the
    user. *)
Definition Cart_findOne_selected (select : User -> User) (u : ObjectId)
  : M (option CartDoc) :=
  call (Read Carts) (fun db =>
    ((fun its => {| cart_user := Populated u (select <$> users db !! u);
                    cart_items := map (populate_item true db) its |})
       <$> carts db !! u, db)).

(** The cast of a new item to the item schema. *)
Definition cast_item (pq : string * Q) : option CartItem :=
  (fun id => {| product := id; quantity := snd pq |}) <$> castObjectId (fst pq).

(** [Cart.create({ user, items })]: an item that fails its cast makes the
    creation fail with a validation error before the store is called. *)
Definition Cart_create (u : ObjectId) (new_items : list (string * Q)) : M CartDoc :=
  match mapM cast_item new_items with
  | None => throw ValidationError
  | Some its =>
      call (Write Carts) (fun db =>
        ({| cart_user := Unpopulated u; cart_items := map plain_item its |},
         set_carts (<[u := its]> (carts db)) db))
  end.

(** [cart.save()] *)
Definition Cart_save (cart : CartDoc) : M unit :=
  call (Write Carts) (fun db =>
    (tt, set_carts (<[ref_id (cart_user cart) := map item_of_doc (cart_items cart)]>
                      (carts db)) db)).

(** [Cart.findOneAndUpdate({ user: userId }, { items }, { new: true,
    upsert: true }).populate("items.product")] *)
Definition Cart_findOneAndUpdate (userId : string) (new_items : list CartItem)
  : M CartDoc :=
  match castObjectId userId with
  | None => throw CastError
  | Some u =>
      call (Write Carts) (fun db =>
        let db' := set_carts (<[u := new_items]> (carts db)) db in
        ({| cart_user := Unpopulated u;
            cart_items := map (populate_item false db') new_items |}, db'))
  end.

(** What [Product.create] and [findByIdAndUpdate] receive: the validated
    fields of the body. *)
Record ProductInput := {
  in_name : string;
  in_description : string;
  in_price : Q;
  in_category : string;
  in_stock : Q;
  in_image : option string;
  in_brand : option string
}.

(** [Product.create({...})]; [new_id] is the identifier generated for the
    document.  A category that fails its cast is a validation error. *)
Definition Product_create (new_id : ObjectId) (i : ProductInput) : M Product :=
  match castObjectId (in_category i) with
  | None => throw ValidationError
  | Some c =>
      let p := {| _id := new_id; name := in_name i; description := in_description i;
                  price := in_price i; category := c; stock := in_stock i;
                  image := in_image i; brand := in_brand i |} in
      call (Write Products) (fun db => (p, set_products (products db ++ [p]) db))
  end.

(** [Product.findById(id).populate("category")] on an identifier. *)
Definition Product_findById (id : ObjectId) : M (option ProductDoc) :=
  call (Read Products) (fun db => (populate_category db <$> findProduct db id, db)).

(** The same on a string of the request. *)
Definition Product_findById_param (id : string) : M (option ProductDoc) :=
  match castObjectId id with
  | None => throw CastError
  | Some id' => Product_findById id'
  end.

(** [Product.find(filter).populate("category")] *)
Definition Product_find (keep : Product -> bool) : M (list ProductDoc) :=
  call (Read Products) (fun db =>
    (map (populate_category db) (List.filter keep (products db)), db)).

(** The update of [findByIdAndUpdate]: a field left [undefined] is not
    part of the update and keeps its stored value. *)
Definition apply_update (c : ObjectId) (i : ProductInput) (p : Product) : Product :=
  {| _id := _id p; name := in_name i; description := in_description i;
     price := in_price i; category := c; stock := in_stock i;
     image := match in_image i with Some x => Some x | None => image p end;
     brand := match in_brand i with Some x => Some x | None => brand p end |}.

(** Replaces the first document with the identifier. *)
Fixpoint update_first (id : ObjectId) (f : Product -> Product) (ps : list Product)
  : list Product :=
  match ps with
  | [] => []
  | p :: ps' => if bool_decide (_id p = id) then f p :: ps'
                else p :: update_first id f ps'
  end.

(** Removes the first document with the identifier. *)
Fixpoint delete_first (id : ObjectId) (ps : list Product) : list Product :=
  match ps with
  | [] => []
  | p :: ps' => if bool_decide (_id p = id) then ps' else p :: delete_first id ps'
  end.

(** [Product.findByIdAndUpdate(id, {...}, { new: true }).populate("category")] *)
Definition Product_findByIdAndUpdate (id : string) (i : ProductInput)
  : M (option ProductDoc) :=
  match castObjectId id, castObjectId (in_category i) with
  | Some id', Some c =>
      call (Write Products) (fun db =>
        let db' := set_products (update_first id' (apply_update c i) (products db)) db in
        (populate_category db' <$> findProduct db' id', db'))
  | _, _ => throw CastError
  end.

(** [Product.findByIdAndDelete(id)] *)
Definition Product_findByIdAndDelete (id : string) : M (option Product) :=
  match castObjectId id with
  | None => throw CastError
  | Some id' =>
      call (Write Products) (fun db =>
        (findProduct db id', set_products (delete_first id' (products db)) db))
  end.

(** *** JavaScript array methods with a callback that may throw *)

(** [xs.find(p)], as the index of the element found: the handlers go on
    to assign to a field of that element, which is the element of the
    array itself. *)
Fixpoint find_index {A} (p : A -> Exn + bool) (xs : list A) : Exn + option nat :=
  match xs with
  | [] => inr None
  | x :: xs' =>
      match p x with
      | inl e => inl e
      | inr true => inr (Some 0%nat)
      | inr false =>
          match find_index p xs' with
          | inl e => inl e
          | inr o => inr (S <$> o)
          end
      end
  end.

(** [xs.filter(p)] *)
Fixpoint js_filter {A} (p : A -> Exn + bool) (xs : list A) : Exn + list A :=
  match xs with
  | [] => inr []
  | x :: xs' =>
      match p x with
      | inl e => inl e
      | inr b =>
          match js_filter p xs' with
          | inl e => inl e
          | inr ys => inr (if b then x :: ys else ys)
          end
      end
  end.

(** [item.product.equals(s)]: on an identifier it is [ObjectId]'s
    [equals]; on a populated document it compares the document's [_id];
    on the [null] left by [populate] the property access throws. *)
Definition equals (r : Ref ProductDoc) (s : string) : Exn + bool :=
  match r with
  | Unpopulated id => inr (oid_equals id s)
  | Populated _ (Some d) => inr (oid_equals (_id (doc_product d)) s)
  | Populated _ None => inl TypeError
  end.

Definition not_equals (r : Ref ProductDoc) (s : string) : Exn + bool :=
  match equals r s with
  | inl e => inl e
  | inr b => inr (negb b)
  end.

(** *** Reading the validated value

    [const { product, quantity } = value]: the fields of a validated
    value have the types of the schema; a field of another type cannot
    occur and is given the behaviour of a failed property access. *)

Definition as_string (v : option Js.value) : option string :=
  match v with Some (Js.Str s) => Some s | _ => None end.

Definition as_number (v : option Js.value) : option Q :=
  match v with Some (Js.Num q) => Some q | _ => None end.

Definition cart_item_of (value : Js.object) : option (string * Q) :=
  match as_string (Js.get "product" value), as_number (Js.get "quantity" value) with
  | Some p, Some q => Some (p, q)
  | _, _ => None
  end.

Definition product_input_of (value : Js.object) : option ProductInput :=
  match as_string (Js.get "name" value), as_string (Js.get "description" value),
        as_number (Js.get "price" value), as_string (Js.get "category" value),
        as_number (Js.get "stock" value) with
  | Some n, Some d, Some p, Some c, Some s =>
      Some {| in_name := n; in_description := d; in_price := p; in_category := c;
              in_stock := s; in_image := as_string (Js.get "image" value);
              in_brand := as_string (Js.get "brand" value) |}
  | _, _, _, _, _ => None
  end.

(** [if (error)] *)
Definition has_error (r : Joi.result) : bool :=
  match Joi.details r with [] => false | _ :: _ => true end.

(** *** The cart controller *)

(** A request of an authenticated user: [req.user._id] and [req.body]. *)
Record CartRequest := { req_user : ObjectId; req_body : Js.object }.

(** [res.json(cart)] answers [null] when the user has no cart. *)
Definition getCart (select : User -> User) (user : ObjectId) : Handler :=
  asyncHandler (
    let* cart := Cart_findOne_selected select user in
    match cart with
    | Some c => ret (Json 200 (BCart c))
    | None => ret (Json 200 BNull)
    end).

(** [item.quantity += quantity] on the element at index [i]. *)
Definition add_quantity (i : nat) (q : Q) (cart : CartDoc) : CartDoc :=
  {| cart_user := cart_user cart;
     cart_items :=
       alter (fun it => {| item_product := item_product it;
                           item_quantity := (item_quantity it + q)%Q |})
             i (cart_items cart) |}.

(** [item.quantity = quantity] on the element at index [i]. *)
Definition set_quantity (i : nat) (q : Q) (cart : CartDoc) : CartDoc :=
  {| cart_user := cart_user cart;
     cart_items :=
       alter (fun it => {| item_product := item_product it; item_quantity := q |})
             i (cart_items cart) |}.

(** [cart.items.push({ product, quantity })], the reference already cast. *)
Definition push_item (id : ObjectId) (q : Q) (cart : CartDoc) : CartDoc :=
  {| cart_user := cart_user cart;
     cart_items := cart_items cart
                   ++ [ {| item_product := Unpopulated id; item_quantity := q |} ] |}.

(** [cart.items = items] *)
Definition set_items (its : list ItemDoc) (cart : CartDoc) : CartDoc :=
  {| cart_user := cart_user cart; cart_items := its |}.

Definition addToCart (req : CartRequest) : Handler :=
  asyncHandler (
    let user := req_user req in
    let r := Joi.validate coerce_number cartItemSchema (req_body req) in
    if has_error r then ret (Json 400 (BErrors (Joi.messages_of r)))
    else
      match cart_item_of (Joi.value r) with
      | None => throw TypeError
      | Some (product, quantity) =>
          let* found := Cart_findOne_populated user in
          match found with
          | None =>
              let* cart := Cart_create user [ (product, quantity) ] in
              ret (Json 200 (BCart cart))
          | Some cart =>
              match find_index (fun item => equals (item_product item) product)
                               (cart_items cart) with
              | inl e => throw e
              | inr (Some i) =>
                  let cart := add_quantity i quantity cart in
                  let* _ := Cart_save cart in
                  ret (Json 200 (BCart cart))
              | inr None =>
                  (* the pushed item is cast; a failed cast makes save() reject *)
                  match castObjectId product with
                  | None => throw ValidationError
                  | Some id =>
                      let cart := push_item id quantity cart in
                      let* _ := Cart_save cart in
                      ret (Json 200 (BCart cart))
                  end
              end
          end
      end).

Definition updateCart (req : CartRequest) : Handler :=
  asyncHandler (
    let user := req_user req in
    let r := Joi.validate coerce_number cartItemSchema (req_body req) in
    if has_error r then ret (Json 400 (BErrors (Joi.messages_of r)))
    else
      match cart_item_of (Joi.value r) with
      | None => throw TypeError
      | Some (product, quantity) =>
          let* found := Cart_findOne user in
          match found with
          | None => ret (Json 404 (BError "Cart not found"))
          | Some cart =>
              match find_index (fun item => equals (item_product item) product)
                               (cart_items cart) with
              | inl e => throw e
              | inr None => ret (Json 404 (BError "Item not found in cart"))
              | inr (Some i) =>
                  let cart := set_quantity i quantity cart in
                  let* _ := Cart_save cart in
                  ret (Json 200 (BCart cart))
              end
          end
      end).

(** [req.user._id] and [req.params.productId] *)
Record RemoveRequest := { rm_user : ObjectId; rm_productId : string }.

Definition removeFromCart (req : RemoveRequest) : Handler :=
  asyncHandler (
    let user := rm_user req in
    let productId := rm_productId req in
    let* found := Cart_findOne user in
    match found with
    | None => ret (Json 404 (BError "Cart not found"))
    | Some cart =>
        match js_filter (fun item => not_equals (item_product item) productId)
                        (cart_items cart) with
        | inl e => throw e
        | inr its =>
            let cart := set_items its cart in
            let* _ := Cart_save cart in
            ret (Json 200 (BCart cart))
        end
    end).

(** [req.params.userId] and the [items] of the body, as the item schema
    casts them. *)
Record ReplaceRequest := { rp_userId : string; rp_items : list CartItem }.

(** The handler catches whatever the query throws. *)
Definition updateCartForUser (req : ReplaceRequest) : Handler :=
  asyncHandler (fun db =>
    match Cart_findOneAndUpdate (rp_userId req) (rp_items req) db with
    | (inr cart, db') => (inr (Json 200 (BCart cart)), db')
    | (inl _, db') => (inr (Json 500 (BError "Internal Server Error")), db')
    end).

(** *** The catalog controller *)

Definition createProduct (new_id : ObjectId) (body : Js.object) : Handler :=
  asyncHandler (
    let r := Joi.validate coerce_number productSchema body in
    if has_error r then ret (Json 400 (BErrorList (Joi.messages_of r)))
    else
      match product_input_of (Joi.value r) with
      | None => throw TypeError
      | Some input =>
          let* product := Product_create new_id input in
          let* product := Product_findById (_id product) in
          ret (Json 201 (BProduct product))
      end).

(** The handler of [GET /api/products]; [search] is [req.query.search].
    [None] when the search term is a pattern outside the modelled
    fragment of the regular expressions. *)
Definition getProducts (search : option string) : option Handler :=
  let respond (query : M (list ProductDoc)) : Handler :=
    asyncHandler (
      let* products := query in
      let count := length products in
      ret (Json 200 (BProducts count products))) in
  match search with
  | Some s =>
      if Js.truthy_string s
      then (fun r => respond (Product_find (fun p => Pcre.test r (name p))))
             <$> Pcre.compile s
      else Some (respond (Product_find (fun _ => true)))
  | None => Some (respond (Product_find (fun _ => true)))
  end.

Definition getProductById (id : string) : Handler :=
  asyncHandler (
    let* product := Product_findById_param id in
    match product with
    | Some p => ret (Json 200 (BProduct (Some p)))
    | None => ret (Json 404 (BError "Product not found"))
    end).

Definition updateProduct (id : string) (body : Js.object) : Handler :=
  asyncHandler (
    let r := Joi.validate coerce_number productSchema body in
    if has_error r then ret (Json 400 (BErrorList (Joi.messages_of r)))
    else
      match product_input_of (Joi.value r) with
      | None => throw TypeError
      | Some input =>
          let* product := Product_findByIdAndUpdate id input in
          match product with
          | Some p => ret (Json 200 (BProduct (Some p)))
          | None => ret (Json 404 (BError "Product not found"))
          end
      end).

Definition deleteProduct (id : string) : Handler :=
  asyncHandler (
    let* product := Product_findByIdAndDelete id in
    match product with
    | Some _ => ret (Json 200 (BMessage "Product removed"))
    | None => ret (Json 404 (BError "Product not found"))
    end).

(** [Product.find({ category: categoryId }).populate("category")] *)
Definition Product_find_category (categoryId : string) : M (list ProductDoc) :=
  match castObjectId categoryId with
  | None => throw CastError
  | Some c => Product_find (fun p => bool_decide (category p = c))
  end.

Definition getProductsByCategory (categoryId : string) : Handler :=
  asyncHandler (
    let* products := Product_find_category categoryId in
    let count := length products in
    if Js.truthy_array products
    then ret (Json 200 (BProducts count products))
    else ret (Json 404 (BError "Products not found for this category"))).

(** *** The exports of the cart controller

    [module.exports = { updateCartForUser }] is followed by a second
    assignment to [module.exports]; an assignment replaces the object
    exported so far. *)

Definition assign_exports (new old : list string) : list string := new.

Definition module_exports : list string :=
  assign_exports [ "getCart"; "addToCart"; "updateCart"; "removeFromCart" ]
    (assign_exports [ "updateCartForUser" ] []).

(** *** Notions used to state the properties *)

(** No store call is going to fail. *)
Definition healthy (db : Db) : Prop := faults db = [].

(** The two stores hold the same documents. *)
Definition same_data (db db' : Db) : Prop :=
  carts db' = carts db /\ products db' = products db /\
  categories db' = categories db /\ users db' = users db.

(** The body passes [cartItemSchema] and yields product [s] and quantity
    [q]. *)
Definition accepts (body : Js.object) (s : string) (q : Q) : Prop :=
  let r := Joi.validate coerce_number cartItemSchema body in
  Joi.details r = [] /\ cart_item_of (Joi.value r) = Some (s, q).

Definition positive_integer (q : Q) : Prop :=
  exists n : Z, (0 < n)%Z /\ (q == inject_Z n)%Q.

(** The number a body gives as quantity: a number, or a string that Joi
    converts to one. *)
Definition quantity_number (body : Js.object) : option Q :=
  match Js.get "quantity" body with
  | Some (Js.Num q) => Some q
  | Some (Js.Str str) =>
      match coerce_number str with
      | Some (Joi.Converted q) => Some q
      | _ => None
      end
  | _ => None
  end.

(** A payload the specification wants refused: the product is missing, the
    quantity is missing or not a number, or the quantity is a number that
    is not positive or not an integer. *)
Definition bad_payload (body : Js.object) : Prop :=
  Js.get "product" body = None \/
  quantity_number body = None \/
  exists q, quantity_number body = Some q /\
            (Js.is_positive q = false \/ Js.is_integer q = false).

(** A populated product is the document with the identifier of the
    reference. *)
Definition faithful (d : ItemDoc) : Prop :=
  match item_product d with
  | Populated id (Some pd) => _id (doc_product pd) = id
  | _ => True
  end.

(** At most one item of a cart references a given product. *)
Definition cart_unique (db : Db) : Prop :=
  forall u its, carts db !! u = Some its -> NoDup (map product its).

(** Every stored quantity is a positive integer. *)
Definition quantities_positive (db : Db) : Prop :=
  forall u its, carts db !! u = Some its ->
                Forall (fun it => positive_integer (quantity it)) its.

(** The requests served through the exports of the cart controller that
    write to the carts, and the store after a sequence of them. *)
Inductive CartOp :=
| Add (req : CartRequest)
| Update (req : CartRequest)
| Remove (req : RemoveRequest).

Definition run_op (op : CartOp) : Handler :=
  match op with
  | Add req => addToCart req
  | Update req => updateCart req
  | Remove req => removeFromCart req
  end.

Definition run_ops (ops : list CartOp) (db : Db) : Db :=
  fold_left (fun d op => (run_op op d).2) ops db.

(** The required fields of a product and the message for each. *)
Definition required_fields : list (string * string) :=
  [ ("name", "Name is required");
    ("description", "Description is required");
    ("price", "Price is required");
    ("category", "Category is required");
    ("stock", "Stock is required") ].

Definition missing_fields (body : Js.object) : list (string * string) :=
  List.filter (fun km => negb (Js.has_key (fst km) body)) required_fields.

Definition is_required_message (m : string) : bool :=
  existsb (fun km => String.eqb m (snd km)) required_fields.

(** A search term without metacharacters of the regular expressions. *)
Fixpoint no_metachar (s : string) : bool :=
  match s with
  | EmptyString => true
  | String c s' => negb (Pcre.is_meta c) && no_metachar s'
  end.

(** The user a request on the carts is made for. *)
Definition op_user (op : CartOp) : ObjectId :=
  match op with
  | Add req => req_user req
  | Update req => req_user req
  | Remove req => rm_user req
  end.

(** The body passes [productSchema] and yields the fields [input]. *)
Definition accepts_product (body : Js.object) (input : ProductInput) : Prop :=
  let r := Joi.validate coerce_number productSchema body in
  Joi.details r = [] /\ product_input_of (Joi.value r) = Some input.

(** The number a body gives at a key: a number, or a string that Joi
    converts to one. *)
Definition field_number (k : string) (body : Js.object) : option Q :=
  match Js.get k body with
  | Some (Js.Num q) => Some q
  | Some (Js.Str str) =>
      match coerce_number str with
      | Some (Joi.Converted q) => Some q
      | _ => None
      end
  | _ => None
  end.

(** The string a body gives at a key. *)
Definition field_string (k : string) (body : Js.object) : option string :=
  as_string (Js.get k body).

(** No two products of the catalog have the same identifier. *)
Definition ids_unique (db : Db) : Prop := NoDup (map _id (products db)).

(** The product that [Product.create] builds from the validated fields. *)
Definition new_product (new_id c : ObjectId) (i : ProductInput) : Product :=
  {| _id := new_id; name := in_name i; description := in_description i;
     price := in_price i; category := c; stock := in_stock i;
     image := in_image i; brand := in_brand i |}.

End Controllers.

Arguments Unpopulated {ObjectId D} id.
Arguments Populated {ObjectId D} id doc.

(** ** A concrete driver

    Identifiers written as 24 hexadecimal digits, kept in lower case, and
    the conversion of the numerals made of decimal digits only. *)

Definition is_hex (c : ascii) : bool :=
  let n := nat_of_ascii c in
  ((48 <=? n) && (n <=? 57) || (65 <=? n) && (n <=? 70) || (97 <=? n) && (n <=? 102))%nat.

Fixpoint all_hex (s : string) : bool :=
  match s with
  | EmptyString => true
  | String c s' => is_hex c && all_hex s'
  end.

Definition hex_cast (s : string) : option string :=
  if (String.length s =? 24)%nat && all_hex s then Some (lower s) else None.

Fixpoint digits_value (s : string) (acc : Z) : option Z :=
  match s with
  | EmptyString => Some acc
  | String c s' =>
      let n := nat_of_ascii c in
      if ((48 <=? n) && (n <=? 57))%nat
      then digits_value s' (10 * acc + Z.of_nat (n - 48))%Z
      else None
  end.

Definition digits_coercion (s : string) : option Joi.coerced :=
  match s with
  | EmptyString => None
  | _ => (fun z => Joi.Converted (inject_Z z)) <$> digits_value s 0%Z
  end.

#[export] Instance hex_driver : Cast string := hex_cast.
#[export] Instance digits_driver : Coercion := digits_coercion.

Module Sample.

Definition shoe_id : string := "650000000000000000000001".
Definition hat_id : string := "650000000000000000000002".
Definition footwear : string := "65000000000000000000000c".
Definition alice : string := "6500000000000000000000a1".

Definition shoe : Product :=
  {| _id := shoe_id; name := "Shoe"; description := "A shoe"; price := 40;
     category := footwear; stock := 3; image := None; brand := None |}.

Definition hat : Product :=
  {| _id := hat_id; name := "Hat"; description := "A hat"; price := 15;
     category := footwear; stock := 7; image := None; brand := None |}.

(** A store with the two products, a category and no cart. *)
Definition catalog : Db (ObjectId := string) (Category := string) (User := string) :=
  {| carts := ∅; products := [ shoe; hat ];
     categories := {[ footwear := "Footwear" ]}; users := ∅;
     faults := []; trace := [] |}.

Definition empty : Db (ObjectId := string) (Category := string) (User := string) :=
  {| carts := ∅; products := []; categories := ∅; users := ∅;
     faults := []; trace := [] |}.

(** The store [db] in which the user [u] has the cart [its]. *)
Definition with_cart (u : string) (its : list CartItem)
  (db : Db (ObjectId := string) (Category := string) (User := string))
  : Db (ObjectId := string) (Category := string) (User := string) :=
  set_carts (<[u := its]> (carts db)) db.

Definition item (p : string) (q : Q) : CartItem (ObjectId := string) :=
  {| product := p; quantity := q |}.

Definition payload (p : string) (q : Q) : Js.object :=
  [ ("product", Js.Str p); ("quantity", Js.Num q) ].

(** A product that the catalog does not hold, as the body of a request
    and as the fields read from it. *)
Definition cap_id : string := "650000000000000000000003".

Definition cap_body : Js.object :=
  [ ("name", Js.Str "Cap"); ("description", Js.Str "A cap");
    ("price", Js.Num 9); ("category", Js.Str footwear);
    ("stock", Js.Num 4); ("brand", Js.Str "Acme") ].

Definition cap_input : ProductInput :=
  {| in_name := "Cap"; in_description := "A cap"; in_price := 9;
     in_category := footwear; in_stock := 4;
     in_image := None; in_brand := Some "Acme" |}.

(** The same with a category that is no identifier. *)
Definition loose_body : Js.object :=
  [ ("name", Js.Str "Cap"); ("description", Js.Str "A cap");
    ("price", Js.Num 9); ("category", Js.Str "caps");
    ("stock", Js.Num 4) ].

Definition loose_input : ProductInput :=
  {| in_name := "Cap"; in_description := "A cap"; in_price := 9;
     in_category := "caps"; in_stock := 4;
     in_image := None; in_brand := None |}.

End Sample.

(** * Properties *)

Section Properties.

Context {ObjectId : Type} `{Countable ObjectId}.
Context {Category User : Type}.
Context {driver : Cast ObjectId} {conversion : Coercion}.

Local Abbreviation Store := (Db (ObjectId := ObjectId) (Category := Category) (User := User)).
Local Abbreviation Item := (CartItem (ObjectId := ObjectId)).

Implicit Types (db : Store) (u id : ObjectId) (q : Q) (s : string).
Implicit Types (its : list (CartItem (ObjectId := ObjectId))).
Implicit Types (d : ItemDoc (ObjectId := ObjectId) (Category := Category)).
Implicit Types (docs : list (ItemDoc (ObjectId := ObjectId) (Category := Category))).

(** ** Numbers *)

Lemma is_integer_inject q :
  Js.is_integer q = true -> (q == inject_Z (Qnum q ÷ Zpos (Qden q))%Z)%Q.
Proof.
  unfold Js.is_integer. intros Hr. apply Z.eqb_eq in Hr.
  unfold Qeq. simpl.
  pose proof (Z.quot_rem' (Qnum q) (Zpos (Qden q))) as Hd.
  rewrite Hr in Hd. lia.
Qed.

Lemma positive_integer_of_checks q :
  Js.is_integer q = true -> Js.is_positive q = true -> positive_integer q.
Proof.
  intros Hi Hp. exists (Qnum q ÷ Zpos (Qden q))%Z. split.
  - pose proof (is_integer_inject q Hi) as He.
    unfold Js.is_positive in Hp. apply Z.ltb_lt in Hp.
    unfold Qeq in He. simpl in He.
    assert (0 <= Qnum q ÷ Z.pos (Qden q))%Z by (apply Z.quot_pos; lia).
    destruct (Z.eq_dec (Qnum q ÷ Z.pos (Qden q))%Z 0%Z) as [E|E]; [|lia].
    rewrite E in He. lia.
  - by apply is_integer_inject.
Qed.

Lemma positive_integer_plus q1 q2 :
  positive_integer q1 -> positive_integer q2 -> positive_integer (q1 + q2).
Proof.
  intros (n1 & Hn1 & E1) (n2 & Hn2 & E2). exists (n1 + n2)%Z. split; [lia|].
  rewrite E1, E2, inject_Z_plus. reflexivity.
Qed.

Lemma positive_integer_checks q :
  positive_integer q -> Js.is_integer q = true /\ Js.is_positive q = true.
Proof.
  intros (n & Hn & E). unfold Qeq in E. simpl in E.
  unfold Js.is_integer, Js.is_positive. split.
  - apply Z.eqb_eq. rewrite Z.mul_1_r in E. rewrite E.
    apply Z.rem_mul. lia.
  - apply Z.ltb_lt. nia.
Qed.

(** ** The cart item schema *)

Local Abbreviation product_key :=
  (Joi.messages (Joi.required Joi.string) [ ("any.required", "Product ID is required") ]).

Local Abbreviation quantity_key :=
  (Joi.messages (Joi.required (Joi.positive (Joi.integer Joi.number)))
     [ ("number.base", "Quantity must be a number");
       ("number.integer", "Quantity must be an integer");
       ("number.positive", "Quantity must be positive");
       ("any.required", "Quantity is required") ]).

(** Validation against [cartItemSchema], key by key. *)
Lemma cart_validate_eq (body : Js.object) :
  Joi.validate coerce_number cartItemSchema body =
  let kp := Joi.validate_key coerce_number "product" product_key (Js.get "product" body) in
  let kq := Joi.validate_key coerce_number "quantity" quantity_key (Js.get "quantity" body) in
  {| Joi.details := (fst kp ++ fst kq ++ []) ++ Joi.unknown_keys cartItemSchema body;
     Joi.value := match snd kp with Some x => [ ("product", x) ] | None => [] end
                  ++ match snd kq with Some x => [ ("quantity", x) ] | None => [] end |}.
Proof.
  unfold Joi.validate, cartItemSchema. cbn [Joi.validate_keys].
  destruct (Joi.validate_key _ "product" _ _) as [e1 [v1|]];
    destruct (Joi.validate_key _ "quantity" _ _) as [e2 [v2|]]; reflexivity.
Qed.

Lemma product_key_ok (v : option Js.value) :
  fst (Joi.validate_key coerce_number "product" product_key v) = [] ->
  exists s, v = Some (Js.Str s) /\ s <> "" /\
            snd (Joi.validate_key coerce_number "product" product_key v) = v.
Proof.
  destruct v as [[| | | |[|]| |]|]; cbn; intros Hd; try discriminate Hd.
  eexists; repeat split; discriminate.
Qed.

Lemma quantity_key_ok (v : option Js.value) :
  fst (Joi.validate_key coerce_number "quantity" quantity_key v) = [] ->
  exists q, Js.is_safe q = true /\ Js.is_integer q = true /\ Js.is_positive q = true /\
            snd (Joi.validate_key coerce_number "quantity" quantity_key v) = Some (Js.Num q) /\
            (v = Some (Js.Num q) \/
             exists str, v = Some (Js.Str str) /\ coerce_number str = Some (Joi.Converted q)).
Proof.
  destruct v as [[| |q| |str| |]|]; cbn; try discriminate.
  - destruct (Js.is_safe q) eqn:Hs; cbn; [|discriminate].
    destruct (Js.is_integer q) eqn:Hi, (Js.is_positive q) eqn:Hp; cbn; try discriminate.
    intros _. exists q. rewrite Hs. cbn. eauto 10.
  - destruct (coerce_number str) as [[q|]|] eqn:Hc; cbn; try discriminate.
    destruct (Js.is_safe q) eqn:Hs; cbn; [|discriminate].
    destruct (Js.is_integer q) eqn:Hi, (Js.is_positive q) eqn:Hp; cbn; try discriminate.
    intros _. exists q. eauto 10.
Qed.

(** The messages for a missing key, a quantity that is not an integer and
    a quantity that is not positive. *)
Lemma quantity_key_messages (body : Js.object) q :
  quantity_number body = Some q -> Js.is_safe q = true ->
  let msgs := map Joi.message
                (fst (Joi.validate_key coerce_number "quantity" quantity_key
                        (Js.get "quantity" body))) in
  (Js.is_integer q = false -> In "Quantity must be an integer" msgs) /\
  (Js.is_positive q = false -> In "Quantity must be positive" msgs).
Proof.
  unfold quantity_number.
  destruct (Js.get "quantity" body) as [[| |q'| |str| |]|]; try discriminate.
  - intros [= ->] Hs. cbn. rewrite Hs. cbn.
    destruct (Js.is_integer q), (Js.is_positive q); cbn; split; intros; try discriminate; tauto.
  - destruct (coerce_number str) as [[q'|]|] eqn:Hc; try discriminate.
    intros [= ->] Hs. cbn. rewrite Hc, Hs. cbn.
    destruct (Js.is_integer q), (Js.is_positive q); cbn; split; intros; try discriminate; tauto.
Qed.

Lemma cart_schema_accepts (body : Js.object) :
  Joi.details (Joi.validate coerce_number cartItemSchema body) = [] ->
  exists s q,
    accepts body s q /\
    Js.get "product" body = Some (Js.Str s) /\ s <> "" /\
    quantity_number body = Some q /\
    Js.is_safe q = true /\ Js.is_integer q = true /\ Js.is_positive q = true.
Proof.
  intros Hd. pose proof Hd as Hd'.
  rewrite cart_validate_eq in Hd'. cbn [Joi.details] in Hd'.
  apply app_eq_nil in Hd' as [Hd' _]. apply app_eq_nil in Hd' as [Hp Hd'].
  apply app_eq_nil in Hd' as [Hq _].
  destruct (product_key_ok _ Hp) as (s & Es & Hs & Ev).
  destruct (quantity_key_ok _ Hq) as (q & Hsafe & Hint & Hpos & Evq & Hv).
  exists s, q. unfold accepts. repeat split; auto.
  - rewrite cart_validate_eq. cbn [Joi.value]. rewrite Ev, Evq, Es. reflexivity.
  - unfold quantity_number. destruct Hv as [->|(str & -> & ->)]; reflexivity.
Qed.

Lemma accepts_inv (body : Js.object) s q :
  accepts body s q ->
  Js.get "product" body = Some (Js.Str s) /\ s <> "" /\
  quantity_number body = Some q /\
  Js.is_safe q = true /\ Js.is_integer q = true /\ Js.is_positive q = true.
Proof.
  intros [Hd Hv].
  destruct (cart_schema_accepts body Hd) as (s' & q' & [_ Hv'] & Hrest).
  rewrite Hv in Hv'. injection Hv' as -> ->. exact Hrest.
Qed.

Lemma accepts_positive_integer (body : Js.object) s q :
  accepts body s q -> positive_integer q.
Proof.
  intros Ha. apply accepts_inv in Ha as (_ & _ & _ & _ & Hi & Hp).
  by apply positive_integer_of_checks.
Qed.

Lemma bad_payload_rejected (body : Js.object) :
  bad_payload body ->
  has_error (Joi.validate coerce_number cartItemSchema body) = true.
Proof.
  intros Hbad. unfold has_error.
  destruct (Joi.details _) eqn:Hd; [|reflexivity].
  destruct (cart_schema_accepts body Hd) as (s & q & _ & Hp & _ & Hq & _ & Hi & Hpos).
  destruct Hbad as [Hb|[Hb|(q' & Hb & Hc)]].
  - congruence.
  - congruence.
  - rewrite Hq in Hb. injection Hb as <-. destruct Hc; congruence.
Qed.

Lemma cart_schema_messages (body : Js.object) :
  let msgs := Joi.messages_of (Joi.validate coerce_number cartItemSchema body) in
  (Js.get "product" body = None -> In "Product ID is required" msgs) /\
  (Js.get "quantity" body = None -> In "Quantity is required" msgs) /\
  (forall q, quantity_number body = Some q -> Js.is_safe q = true ->
             Js.is_integer q = false -> In "Quantity must be an integer" msgs) /\
  (forall q, quantity_number body = Some q -> Js.is_safe q = true ->
             Js.is_positive q = false -> In "Quantity must be positive" msgs).
Proof.
  unfold Joi.messages_of. rewrite cart_validate_eq. cbn [Joi.details].
  rewrite !map_app. repeat split.
  - intros ->. cbn. tauto.
  - intros ->. rewrite !in_app_iff. cbn. tauto.
  - intros q Hq Hs Hi. rewrite !in_app_iff.
    left. right. left. by apply (quantity_key_messages body q Hq Hs).
  - intros q Hq Hs Hi. rewrite !in_app_iff.
    left. right. left. by apply (quantity_key_messages body q Hq Hs).
Qed.

(** A product string and a number that pass the three checks make a valid
    payload. *)
Lemma accepts_payload s q :
  s <> "" -> Js.is_safe q = true -> Js.is_integer q = true -> Js.is_positive q = true ->
  accepts [ ("product", Js.Str s); ("quantity", Js.Num q) ] s q.
Proof.
  intros Hs Hsafe Hi Hp. unfold accepts. rewrite cart_validate_eq.
  cbn. destruct s as [|c s]; [done|]. cbn. rewrite Hsafe. cbn. rewrite Hi, Hp. cbn.
  auto.
Qed.

(** ** Store calls *)

Lemma same_data_log op db : same_data db (log op db).
Proof. by repeat split. Qed.

(** A call fails leaving the documents as they are, or runs on a store with
    the same documents. *)
Lemma call_cases {A} (op : StoreOp) (f : Store -> A * Store) db :
  exists db1, same_data db db1 /\
    (call op f db = (inl StoreError, db1) \/
     call op f db = (inr (f db1).1, (f db1).2)).
Proof.
  unfold call.
  destruct (faults (log op db)) as [|[|] fs] eqn:Hf.
  - exists (log op db). split; [apply same_data_log|right]. by destruct (f _).
  - exists (set_faults fs (log op db)). split; [by repeat split|by left].
  - exists (set_faults fs (log op db)). split; [by repeat split|right].
    by destruct (f _).
Qed.

(** On a healthy store a call runs. *)
Lemma call_healthy {A} (op : StoreOp) (f : Store -> A * Store) db :
  healthy db -> call op f db = (inr (f (log op db)).1, (f (log op db)).2).
Proof.
  unfold healthy, call. intros Hh. cbn. rewrite Hh. by destruct (f _).
Qed.

Lemma findProduct_id db id (p : Product) : findProduct db id = Some p -> _id p = id.
Proof.
  unfold findProduct. intros Hf. apply find_some in Hf as [_ Hb].
  by apply bool_decide_eq_true in Hb.
Qed.

(** ** Items in memory and as stored *)

Lemma faithful_plain its :
  Forall faithful (map (plain_item (Category := Category)) its).
Proof. induction its; cbn; constructor; [exact I|done]. Qed.

Lemma faithful_populated deep db its :
  Forall faithful (map (populate_item deep db) its).
Proof.
  induction its as [|it its IH]; cbn; constructor; [|done].
  unfold faithful, populate_item. cbn.
  destruct (findProduct db (product it)) as [p|] eqn:Hf; cbn; [|exact I].
  apply findProduct_id in Hf. by destruct deep.
Qed.

Lemma item_of_plain its :
  map item_of_doc (map (plain_item (Category := Category)) its) = its.
Proof.
  rewrite map_map. rewrite <- (map_id its) at 2. apply map_ext. by intros [].
Qed.

Lemma item_of_populated deep db its :
  map item_of_doc (map (populate_item deep db) its) = its.
Proof.
  rewrite map_map. rewrite <- (map_id its) at 2. apply map_ext. by intros [].
Qed.

(** [equals] on a faithful item compares the stored reference. *)
Lemma equals_faithful d s b :
  faithful d -> equals (item_product d) s = inr b ->
  b = oid_equals (ref_id (item_product d)) s.
Proof.
  unfold faithful, equals. destruct (item_product d) as [id|id [pd|]]; cbn.
  - by intros _ [= <-].
  - by intros <- [= <-].
  - discriminate.
Qed.

Lemma oid_equals_true id s : oid_equals id s = true <-> castObjectId s = Some id.
Proof.
  unfold oid_equals. destruct (castObjectId s) as [id'|]; [|split; discriminate].
  rewrite bool_decide_eq_true. split; congruence.
Qed.

(** What [find] found: the first item that references the product. *)
Lemma find_index_Some (docs : list ItemDoc) s i :
  Forall faithful docs ->
  find_index (fun item => equals (item_product item) s) docs = inr (Some i) ->
  exists id l1 d l2,
    castObjectId s = Some id /\ docs = l1 ++ d :: l2 /\ length l1 = i /\
    ref_id (item_product d) = id /\
    id ∉ map (fun d' => ref_id (item_product d')) l1.
Proof.
  intros Hf. revert i. induction Hf as [|d docs Hd Hf IH]; intros i; cbn; [discriminate|].
  destruct (equals (item_product d) s) as [e|b] eqn:He; [discriminate|].
  apply (equals_faithful _ _ _ Hd) in He. destruct b.
  - intros [= <-]. symmetry in He. apply oid_equals_true in He.
    exists (ref_id (item_product d)), [], d, docs. repeat split; auto.
    cbn. apply not_elem_of_nil.
  - destruct (find_index _ docs) as [e|[j|]] eqn:Hfi; cbn; try discriminate.
    intros [= <-]. destruct (IH j eq_refl) as (id & l1 & d' & l2 & Hc & -> & Hl & Hid & Hn).
    exists id, (d :: l1), d', l2. repeat split; auto; [by cbn; rewrite Hl|].
    cbn. apply not_elem_of_cons. split; [|done].
    intros ->. apply oid_equals_true in Hc. congruence.
Qed.

(** [find] found nothing: no item references the product. *)
Lemma find_index_None (docs : list ItemDoc) s id :
  Forall faithful docs ->
  find_index (fun item => equals (item_product item) s) docs = inr None ->
  castObjectId s = Some id ->
  id ∉ map (fun d' => ref_id (item_product d')) docs.
Proof.
  intros Hf Hfi Hc. induction Hf as [|d docs Hd Hf IH]; cbn in *; [apply not_elem_of_nil|].
  destruct (equals (item_product d) s) as [e|b] eqn:He; [discriminate|].
  apply (equals_faithful _ _ _ Hd) in He. destruct b; [discriminate|].
  destruct (find_index _ docs) as [e|[j|]] eqn:Hfi'; cbn in Hfi; try discriminate.
  apply not_elem_of_cons. split; [|by apply IH].
  intros ->. apply oid_equals_true in Hc. congruence.
Qed.

Lemma alter_middle {A} (f : A -> A) (l1 : list A) x (l2 : list A) :
  alter f (length l1) (l1 ++ x :: l2) = l1 ++ f x :: l2.
Proof. induction l1 as [|y l1 IH]; cbn; [done|]. by rewrite IH. Qed.

(** A decomposition of the documents in memory is one of the stored items. *)
Lemma docs_split (docs : list ItemDoc) l1 d l2 :
  docs = l1 ++ d :: l2 ->
  map item_of_doc docs = map item_of_doc l1 ++ item_of_doc d :: map item_of_doc l2.
Proof. intros ->. by rewrite map_app. Qed.

Lemma product_of_docs (l : list ItemDoc) :
  map product (map item_of_doc l) = map (fun d' => ref_id (item_product d')) l.
Proof. by rewrite map_map. Qed.

(** ** The queries, on any store *)

Lemma Cart_findOne_cases u db :
  exists db1, same_data db db1 /\
    (Cart_findOne u db = (inl StoreError, db1) \/
     Cart_findOne u db
     = (inr ((fun its => {| cart_user := Unpopulated u;
                            cart_items := map plain_item its |})
               <$> carts db !! u), db1)).
Proof.
  unfold Cart_findOne.
  destruct (call_cases (Read Carts)
              (fun db0 : Store =>
                 ((fun its => {| cart_user := Unpopulated (D := User) u;
                                 cart_items := map (plain_item (Category := Category)) its |})
                    <$> carts db0 !! u, db0)) db) as (db1 & Hs & [E|E]);
    exists db1; (split; [done|]); [by left|right].
  rewrite E. cbn. destruct Hs as (-> & _). done.
Qed.

Lemma Cart_findOne_populated_cases u db :
  exists db1, same_data db db1 /\
    (Cart_findOne_populated u db = (inl StoreError, db1) \/
     Cart_findOne_populated u db
     = (inr ((fun its => {| cart_user := Populated u (users db1 !! u);
                            cart_items := map (populate_item true db1) its |})
               <$> carts db !! u), db1)).
Proof.
  unfold Cart_findOne_populated.
  destruct (call_cases (Read Carts)
              (fun db0 : Store =>
                 ((fun its => {| cart_user := Populated u (users db0 !! u);
                                 cart_items := map (populate_item true db0) its |})
                    <$> carts db0 !! u, db0)) db) as (db1 & Hs & [E|E]);
    exists db1; (split; [done|]); [by left|right].
  rewrite E. cbn. destruct Hs as (-> & _). done.
Qed.

Lemma Cart_save_cases (cart : CartDoc) db :
  exists db1, same_data db db1 /\
    (Cart_save cart db = (inl StoreError, db1) \/
     Cart_save cart db
     = (inr tt, set_carts (<[ref_id (cart_user cart) := map item_of_doc (cart_items cart)]>
                             (carts db)) db1)).
Proof.
  unfold Cart_save.
  destruct (call_cases (Write Carts)
              (fun db0 : Store =>
                 (tt, set_carts (<[ref_id (cart_user cart) := map item_of_doc (cart_items cart)]>
                                   (carts db0)) db0)) db) as (db1 & Hs & [E|E]);
    exists db1; (split; [done|]); [by left|right].
  rewrite E. cbn. destruct Hs as (-> & _). done.
Qed.

Lemma Cart_create_cases u s q id db :
  castObjectId s = Some id ->
  exists db1, same_data db db1 /\
    (Cart_create u [ (s, q) ] db = (inl StoreError, db1) \/
     Cart_create u [ (s, q) ] db
     = (inr {| cart_user := Unpopulated u;
               cart_items := [ plain_item {| product := id; quantity := q |} ] |},
        set_carts (<[u := [ {| product := id; quantity := q |} ]]> (carts db)) db1)).
Proof.
  intros Hc. unfold Cart_create, cast_item. cbn. rewrite Hc. cbn.
  destruct (call_cases (Write Carts)
              (fun db0 : Store =>
                 ({| cart_user := Unpopulated (D := User) u;
                     cart_items := [ plain_item (Category := Category)
                                       {| product := id; quantity := q |} ] |},
                  set_carts (<[u := [ {| product := id; quantity := q |} ]]> (carts db0)) db0))
              db) as (db1 & Hs & [E|E]);
    exists db1; (split; [done|]); [by left|right].
  rewrite E. cbn. destruct Hs as (-> & _). done.
Qed.

Lemma Cart_create_uncastable u s q db :
  castObjectId s = None ->
  Cart_create u [ (s, q) ] db = (inl ValidationError, db).
Proof. intros Hc. unfold Cart_create, cast_item. cbn. by rewrite Hc. Qed.

(** ** The queries, on a healthy store *)

Lemma Cart_findOne_healthy u db :
  healthy db ->
  Cart_findOne u db
  = (inr ((fun its => {| cart_user := Unpopulated u; cart_items := map plain_item its |})
            <$> carts db !! u), log (Read Carts) db).
Proof. intros Hh. unfold Cart_findOne. by rewrite call_healthy. Qed.

Lemma Cart_findOne_populated_healthy u db :
  healthy db ->
  Cart_findOne_populated u db
  = (inr ((fun its => {| cart_user := Populated u (users db !! u);
                         cart_items := map (populate_item true (log (Read Carts) db)) its |})
            <$> carts db !! u), log (Read Carts) db).
Proof. intros Hh. unfold Cart_findOne_populated. by rewrite call_healthy. Qed.

Lemma Cart_save_healthy (cart : CartDoc) db :
  healthy db ->
  Cart_save cart db
  = (inr tt, set_carts (<[ref_id (cart_user cart) := map item_of_doc (cart_items cart)]>
                          (carts db)) (log (Write Carts) db)).
Proof. intros Hh. unfold Cart_save. by rewrite call_healthy. Qed.

(** ** What the cart handlers write *)

Ltac store_step lem :=
  let db1 := fresh "db1" in
  let Hs := fresh "Hs" in
  let E := fresh "E" in
  destruct lem as (db1 & Hs & [E|E]); rewrite E; cbn [fst snd].

(** The carts after [addToCart]: unchanged, or the cart of the user is
    created with the item, or the first item for the product has its
    quantity increased, or the item is appended to a cart without one for
    the product. *)
Lemma addToCart_carts (req : CartRequest) db :
  let db' := (addToCart req db).2 in
  carts db' = carts db \/
  exists s q id,
    accepts (req_body req) s q /\ castObjectId s = Some id /\
    (((carts db !! req_user req) = None /\
      carts db' = <[req_user req := [ {| product := id; quantity := q |} ]]> (carts db)) \/
     (exists l1 q1 l2,
        (carts db !! req_user req) = Some (l1 ++ {| product := id; quantity := q1 |} :: l2) /\
        (id ∉ map product l1) /\
        carts db' = <[req_user req := l1 ++ {| product := id; quantity := (q1 + q)%Q |} :: l2]>
                      (carts db)) \/
     (exists its,
        (carts db !! req_user req) = Some its /\ (id ∉ map product its) /\
        carts db' = <[req_user req := its ++ [ {| product := id; quantity := q |} ]]>
                      (carts db))).
Proof.
  unfold addToCart, asyncHandler. cbn zeta.
  destruct (has_error _) eqn:Herr; [by left|].
  destruct (cart_item_of _) as [[s q]|] eqn:Hitem; [|by left].
  assert (Hacc : accepts (req_body req) s q).
  { split; [|done]. unfold has_error in Herr. by destruct (Joi.details _). }
  unfold bind.
  store_step (Cart_findOne_populated_cases (req_user req) db); [by left; apply Hs|].
  destruct Hs as (Hc1 & _).
  destruct (carts db !! req_user req) as [its|] eqn:Hcart; cbn.
  - (* a cart exists *)
    pose proof (faithful_populated true db1 its) as Hfaith.
    destruct (find_index _ _) as [e|[i|]] eqn:Hfind; cbn.
    + by left.
    + destruct (find_index_Some _ _ _ Hfaith Hfind)
        as (id & l1 & d & l2 & Hcast & Hdocs & Hlen & Hid & Hnot).
      match goal with
      | |- context [Cart_save ?c ?d] => store_step (Cart_save_cases c d)
      end; destruct Hs as (Hc2 & _); [left; congruence|].
      right. exists s, q, id. do 2 (split; [done|]). right. left.
      cbn. rewrite Hc1.
      pose proof (docs_split _ _ _ _ Hdocs) as Hits. rewrite item_of_populated in Hits.
      exists (map item_of_doc l1), (item_quantity d), (map item_of_doc l2).
      split; [|split].
      * rewrite Hits. do 2 f_equal. unfold item_of_doc. by rewrite Hid.
      * by rewrite product_of_docs.
      * f_equal. rewrite Hdocs, <- Hlen, alter_middle, map_app. cbn.
        do 2 f_equal. unfold item_of_doc. cbn. by rewrite Hid.
    + destruct (castObjectId s) as [id|] eqn:Hcast; cbn; [|by left].
      match goal with
      | |- context [Cart_save ?c ?d] => store_step (Cart_save_cases c d)
      end; destruct Hs as (Hc2 & _); [left; congruence|].
      right. exists s, q, id. do 2 (split; [done|]). right. right.
      exists its. split; [done|]. split.
      * pose proof (find_index_None _ _ _ Hfaith Hfind Hcast) as Hn.
        by rewrite <- product_of_docs, item_of_populated in Hn.
      * cbn. rewrite Hc1. f_equal. by rewrite map_app, item_of_populated.
  - (* no cart yet *)
    destruct (castObjectId s) as [id|] eqn:Hcast.
    + store_step (Cart_create_cases (req_user req) s q id db1 Hcast);
        destruct Hs as (Hc2 & _); [left; congruence|].
      right. exists s, q, id. do 2 (split; [done|]). left. split; [done|].
      cbn. by rewrite Hc1.
    + rewrite Cart_create_uncastable by done. by left.
Qed.

(** The carts after [updateCart]: unchanged, or the first item for the
    product has its quantity replaced. *)
Lemma updateCart_carts (req : CartRequest) db :
  let db' := (updateCart req db).2 in
  carts db' = carts db \/
  exists s q id l1 q1 l2,
    accepts (req_body req) s q /\ castObjectId s = Some id /\
    (carts db !! req_user req) = Some (l1 ++ {| product := id; quantity := q1 |} :: l2) /\
    (id ∉ map product l1) /\
    carts db' = <[req_user req := l1 ++ {| product := id; quantity := q |} :: l2]> (carts db).
Proof.
  unfold updateCart, asyncHandler. cbn zeta.
  destruct (has_error _) eqn:Herr; [by left|].
  destruct (cart_item_of _) as [[s q]|] eqn:Hitem; [|by left].
  assert (Hacc : accepts (req_body req) s q).
  { split; [|done]. unfold has_error in Herr. by destruct (Joi.details _). }
  unfold bind.
  store_step (Cart_findOne_cases (req_user req) db); [by left; apply Hs|].
  destruct Hs as (Hc1 & _).
  destruct (carts db !! req_user req) as [its|] eqn:Hcart; cbn; [|by left].
  pose proof (faithful_plain its) as Hfaith.
  destruct (find_index _ _) as [e|[i|]] eqn:Hfind; cbn; [by left| |by left].
  destruct (find_index_Some _ _ _ Hfaith Hfind)
    as (id & l1 & d & l2 & Hcast & Hdocs & Hlen & Hid & Hnot).
  match goal with
  | |- context [Cart_save ?c ?d] => store_step (Cart_save_cases c d)
  end; destruct Hs as (Hc2 & _); [left; congruence|].
  right. exists s, q, id, (map item_of_doc l1), (item_quantity d), (map item_of_doc l2).
  do 2 (split; [done|]). cbn. rewrite Hc1.
  pose proof (docs_split _ _ _ _ Hdocs) as Hits. rewrite item_of_plain in Hits.
  split; [|split].
  - rewrite Hits. do 2 f_equal. unfold item_of_doc. by rewrite Hid.
  - by rewrite product_of_docs.
  - f_equal. rewrite Hdocs, <- Hlen, alter_middle, map_app. cbn.
    do 2 f_equal. unfold item_of_doc. cbn. by rewrite Hid.
Qed.

(** [filter] on unpopulated items keeps those that reference another
    product and never throws. *)
Lemma js_filter_plain its s :
  js_filter (fun item => not_equals (item_product item) s)
            (map (plain_item (Category := Category)) its)
  = inr (map plain_item (List.filter (fun it => negb (oid_equals (product it) s)) its)).
Proof.
  induction its as [|it its IH]; cbn; [done|].
  rewrite IH. unfold not_equals. cbn. by destruct (oid_equals (product it) s).
Qed.

(** The carts after [removeFromCart]: unchanged, or the cart of the user
    without the items that reference the product. *)
Lemma removeFromCart_carts (req : RemoveRequest) db :
  let db' := (removeFromCart req db).2 in
  carts db' = carts db \/
  exists its,
    (carts db !! rm_user req) = Some its /\
    carts db' = <[rm_user req :=
                    List.filter (fun it => negb (oid_equals (product it) (rm_productId req))) its]>
                  (carts db).
Proof.
  unfold removeFromCart, asyncHandler. cbn zeta. unfold bind.
  store_step (Cart_findOne_cases (rm_user req) db); [by left; apply Hs|].
  destruct Hs as (Hc1 & _).
  destruct (carts db !! rm_user req) as [its|] eqn:Hcart; cbn; [|by left].
  rewrite js_filter_plain.
  match goal with
  | |- context [Cart_save ?c ?d] => store_step (Cart_save_cases c d)
  end; destruct Hs as (Hc2 & _); [left; congruence|].
  right. exists its. split; [done|]. cbn. by rewrite Hc1, item_of_plain.
Qed.

(** ** Invariants of the carts *)

Lemma cart_unique_same db db' : carts db' = carts db -> cart_unique db -> cart_unique db'.
Proof. unfold cart_unique. by intros ->. Qed.

Lemma cart_unique_insert db db' u its :
  carts db' = <[u := its]> (carts db) -> NoDup (map product its) ->
  cart_unique db -> cart_unique db'.
Proof.
  unfold cart_unique. intros -> Hn Hu u' its'.
  destruct (decide (u = u')) as [->|Hne].
  - rewrite lookup_insert_eq. by intros [= <-].
  - rewrite lookup_insert_ne by done. apply Hu.
Qed.

Lemma product_middle l1 id q l2 :
  map product (l1 ++ {| product := id; quantity := q |} :: l2)
  = map product l1 ++ id :: map product l2.
Proof. by rewrite map_app. Qed.

Lemma NoDup_filter_product (keep : CartItem -> bool) its :
  NoDup (map product its) -> NoDup (map product (List.filter keep its)).
Proof.
  induction its as [|it its IH]; cbn; [done|].
  intros Hn. apply NoDup_cons in Hn as [Hnot Hn].
  destruct (keep it); cbn; [|by apply IH].
  apply NoDup_cons. split; [|by apply IH].
  intros Hin. apply Hnot.
  apply list_elem_of_In, in_map_iff in Hin as (it' & <- & Hin).
  apply list_elem_of_In, in_map. by apply filter_In in Hin as [? _].
Qed.

Lemma quantities_positive_same db db' :
  carts db' = carts db -> quantities_positive db -> quantities_positive db'.
Proof. unfold quantities_positive. by intros ->. Qed.

Lemma quantities_positive_insert db db' u its :
  carts db' = <[u := its]> (carts db) ->
  Forall (fun it => positive_integer (quantity it)) its ->
  quantities_positive db -> quantities_positive db'.
Proof.
  unfold quantities_positive. intros -> Hn Hu u' its'.
  destruct (decide (u = u')) as [->|Hne].
  - rewrite lookup_insert_eq. by intros [= <-].
  - rewrite lookup_insert_ne by done. apply Hu.
Qed.

Lemma cart_unique_empty db : carts db = ∅ -> cart_unique db.
Proof. intros He u its. rewrite He, lookup_empty. discriminate. Qed.

Lemma quantities_positive_empty db : carts db = ∅ -> quantities_positive db.
Proof. intros He u its. rewrite He, lookup_empty. discriminate. Qed.

Lemma cart_unique_addToCart (req : CartRequest) db :
  cart_unique db -> cart_unique (addToCart req db).2.
Proof.
  intros Hu.
  destruct (addToCart_carts req db) as [E|(s & q & id & _ & _ & Hcase)].
  { by apply (cart_unique_same db). }
  destruct Hcase as [(Hnone & E)|[(l1 & q1 & l2 & Hsome & Hnot & E)|(its & Hsome & Hnot & E)]].
  - apply (cart_unique_insert db _ _ _ E); [|done].
    cbn. apply NoDup_singleton.
  - apply (cart_unique_insert db _ _ _ E); [|done].
    apply Hu in Hsome. by rewrite product_middle in *.
  - apply (cart_unique_insert db _ _ _ E); [|done].
    apply Hu in Hsome. rewrite map_app. cbn.
    apply NoDup_app. split; [done|]. split; [|apply NoDup_singleton].
    intros x Hx Hx'. apply list_elem_of_singleton in Hx'. by subst.
Qed.

Lemma cart_unique_updateCart (req : CartRequest) db :
  cart_unique db -> cart_unique (updateCart req db).2.
Proof.
  intros Hu.
  destruct (updateCart_carts req db)
    as [E|(s & q & id & l1 & q1 & l2 & _ & _ & Hsome & Hnot & E)].
  { by apply (cart_unique_same db). }
  apply (cart_unique_insert db _ _ _ E); [|done].
  apply Hu in Hsome. by rewrite product_middle in *.
Qed.

Lemma cart_unique_removeFromCart (req : RemoveRequest) db :
  cart_unique db -> cart_unique (removeFromCart req db).2.
Proof.
  intros Hu.
  destruct (removeFromCart_carts req db) as [E|(its & Hsome & E)].
  { by apply (cart_unique_same db). }
  apply (cart_unique_insert db _ _ _ E); [|done].
  apply NoDup_filter_product. by apply Hu in Hsome.
Qed.

(** X12. The invariant that at most one item of a cart references a given
    product holds in every store reached through any sequence of requests
    served by [addToCart], [updateCart] and [removeFromCart] from a store
    where it holds, failed requests and failing store calls included. *)
Lemma cart_unique_run_ops (ops : list CartOp) db :
  cart_unique db -> cart_unique (run_ops ops db).
Proof.
  unfold run_ops. revert db. induction ops as [|op ops IH]; intros db Hu; cbn; [done|].
  apply IH. destruct op; cbn.
  - by apply cart_unique_addToCart.
  - by apply cart_unique_updateCart.
  - by apply cart_unique_removeFromCart.
Qed.

(** C2. The invariant that at most one item of a cart references a given
    product is preserved by [addToCart] (creation, merge or append),
    [updateCart] and [removeFromCart], whatever the request and whatever
    the outcome. *)
Theorem cart_unique_preserved (add upd : CartRequest) (rm : RemoveRequest) db :
  cart_unique db ->
  cart_unique (addToCart add db).2 /\
  cart_unique (updateCart upd db).2 /\
  cart_unique (removeFromCart rm db).2.
Proof.
  intros Hu. split; [|split].
  - by apply cart_unique_addToCart.
  - by apply cart_unique_updateCart.
  - by apply cart_unique_removeFromCart.
Qed.

Lemma Forall_middle (P : Item -> Prop) l1 (x y : Item) l2 :
  Forall P (l1 ++ x :: l2) -> P y -> Forall P (l1 ++ y :: l2).
Proof.
  intros Hf Hy. apply Forall_app in Hf as [Ha Hb]. apply Forall_cons in Hb as [_ Hb].
  apply Forall_app. split; [done|]. by apply Forall_cons.
Qed.

Lemma quantities_positive_addToCart (req : CartRequest) db :
  quantities_positive db -> quantities_positive (addToCart req db).2.
Proof.
  intros Hq.
  destruct (addToCart_carts req db) as [E|(s & q & id & Hacc & _ & Hcase)].
  { by apply (quantities_positive_same db). }
  apply accepts_positive_integer in Hacc.
  destruct Hcase as [(Hnone & E)|[(l1 & q1 & l2 & Hsome & Hnot & E)|(its & Hsome & Hnot & E)]].
  - apply (quantities_positive_insert db _ _ _ E); [|done].
    by apply Forall_singleton.
  - apply (quantities_positive_insert db _ _ _ E); [|done].
    apply Hq in Hsome. apply (Forall_middle _ _ _ _ _ Hsome). cbn.
    apply positive_integer_plus; [|done].
    apply Forall_app in Hsome as [_ Hb]. by apply Forall_cons in Hb as [Hb _].
  - apply (quantities_positive_insert db _ _ _ E); [|done].
    apply Hq in Hsome. apply Forall_app. split; [done|]. by apply Forall_singleton.
Qed.

Lemma quantities_positive_updateCart (req : CartRequest) db :
  quantities_positive db -> quantities_positive (updateCart req db).2.
Proof.
  intros Hq.
  destruct (updateCart_carts req db)
    as [E|(s & q & id & l1 & q1 & l2 & Hacc & _ & Hsome & Hnot & E)].
  { by apply (quantities_positive_same db). }
  apply accepts_positive_integer in Hacc.
  apply (quantities_positive_insert db _ _ _ E); [|done].
  apply Hq in Hsome. by apply (Forall_middle _ _ _ _ _ Hsome).
Qed.

Lemma quantities_positive_removeFromCart (req : RemoveRequest) db :
  quantities_positive db -> quantities_positive (removeFromCart req db).2.
Proof.
  intros Hq.
  destruct (removeFromCart_carts req db) as [E|(its & Hsome & E)].
  { by apply (quantities_positive_same db). }
  apply (quantities_positive_insert db _ _ _ E); [|done].
  apply Hq in Hsome. apply Forall_forall. intros it Hin.
  apply list_elem_of_In, filter_In in Hin as [Hin _].
  rewrite Forall_forall in Hsome. by apply Hsome, list_elem_of_In.
Qed.

Lemma quantities_positive_run_ops (ops : list CartOp) db :
  quantities_positive db -> quantities_positive (run_ops ops db).
Proof.
  unfold run_ops. revert db. induction ops as [|op ops IH]; intros db Hq; cbn; [done|].
  apply IH. destruct op; cbn.
  - by apply quantities_positive_addToCart.
  - by apply quantities_positive_updateCart.
  - by apply quantities_positive_removeFromCart.
Qed.

(** C4. [addToCart] and [updateCart] answer a payload without product,
    without a numeric quantity, or with a quantity that is not positive or
    not an integer, with status 400 and the messages of all violations,
    and the store is left as it was, its trace included: it is neither read
    nor written.  Consequently the quantity of a valid payload is a
    positive integer, the two handlers keep every stored quantity a
    positive integer, and every quantity is a positive integer in a store
    reached from one without carts through [addToCart], [updateCart] and
    [removeFromCart]. *)
Theorem cart_validation (req : CartRequest) db :
  (bad_payload (req_body req) ->
   let errors := Joi.messages_of (Joi.validate coerce_number cartItemSchema (req_body req)) in
   errors <> [] /\
   addToCart req db = (Json 400 (BErrors errors), db) /\
   updateCart req db = (Json 400 (BErrors errors), db) /\
   (Js.get "product" (req_body req) = None -> In "Product ID is required" errors) /\
   (Js.get "quantity" (req_body req) = None -> In "Quantity is required" errors) /\
   (forall q, quantity_number (req_body req) = Some q -> Js.is_safe q = true ->
              Js.is_integer q = false -> In "Quantity must be an integer" errors) /\
   (forall q, quantity_number (req_body req) = Some q -> Js.is_safe q = true ->
              Js.is_positive q = false -> In "Quantity must be positive" errors)) /\
  (forall s q, accepts (req_body req) s q -> positive_integer q) /\
  (quantities_positive db ->
   quantities_positive (addToCart req db).2 /\
   quantities_positive (updateCart req db).2) /\
  (forall ops, carts db = ∅ -> quantities_positive (run_ops ops db)).
Proof.
  split; [|split; [|split]]; [| | |by intros ops He; apply quantities_positive_run_ops,
                                       quantities_positive_empty].
  - intros Hbad errors.
    pose proof (bad_payload_rejected _ Hbad) as Herr.
    split; [|split; [|split]].
    + subst errors. unfold Joi.messages_of, has_error in *.
      by destruct (Joi.details _).
    + unfold addToCart, asyncHandler. cbn zeta. by rewrite Herr.
    + unfold updateCart, asyncHandler. cbn zeta. by rewrite Herr.
    + apply cart_schema_messages.
  - apply accepts_positive_integer.
  - intros Hq. split.
    + by apply quantities_positive_addToCart.
    + by apply quantities_positive_updateCart.
Qed.

(** ** The cart handlers on a healthy store *)

Lemma accepts_no_error (body : Js.object) s q :
  accepts body s q ->
  has_error (Joi.validate coerce_number cartItemSchema body) = false /\
  cart_item_of (Joi.value (Joi.validate coerce_number cartItemSchema body)) = Some (s, q).
Proof. intros [Hd Hv]. unfold has_error. by rewrite Hd. Qed.

Lemma find_index_first l1 d l2 s :
  Forall (fun d' => equals (item_product d') s = inr false) l1 ->
  equals (item_product d) s = inr true ->
  find_index (fun item => equals (item_product item) s) (l1 ++ d :: l2)
  = inr (Some (length l1)).
Proof.
  intros Hf Hd. induction Hf as [|d' l1 Hd' Hf IH]; cbn.
  - by rewrite Hd.
  - by rewrite Hd', IH.
Qed.

Lemma find_index_absent docs s :
  Forall (fun d' => equals (item_product d') s = inr false) docs ->
  find_index (fun item => equals (item_product item) s) docs = inr None.
Proof.
  intros Hf. induction Hf as [|d' l1 Hd' Hf IH]; cbn; [done|].
  by rewrite Hd', IH.
Qed.

Lemma oid_equals_cast id id' s :
  castObjectId s = Some id -> oid_equals id' s = bool_decide (id' = id).
Proof. unfold oid_equals. by intros ->. Qed.

Lemma plain_other its s id :
  castObjectId s = Some id -> (id ∉ map product its) ->
  Forall (fun d' => equals (item_product d') s = inr false)
         (map (plain_item (Category := Category)) its).
Proof.
  intros Hc. induction its as [|it its IH]; cbn; intros Hn; constructor.
  - cbn. rewrite (oid_equals_cast id) by done. f_equal.
    apply bool_decide_eq_false. intros E. apply Hn. rewrite E. apply list_elem_of_here.
  - apply IH. intros Hin. apply Hn. by apply list_elem_of_further.
Qed.

(** C3. On a healthy store, for a valid payload with product [id] and
    quantity [q]: without a cart [updateCart] answers 404 "Cart not found";
    with a cart that holds no item for the product it answers 404 "Item not
    found in cart"; in both cases the store is only read.  Otherwise the
    item for the product gets the quantity [q], whatever quantity it had,
    the other items stay as they were, and the cart is saved. *)
Theorem updateCart_sets_quantity (req : CartRequest) s q id db :
  healthy db -> accepts (req_body req) s q -> castObjectId s = Some id ->
  let u := req_user req in
  ((carts db !! u) = None ->
   updateCart req db = (Json 404 (BError "Cart not found"), log (Read Carts) db)) /\
  (forall its, (carts db !! u) = Some its -> (id ∉ map product its) ->
   updateCart req db = (Json 404 (BError "Item not found in cart"), log (Read Carts) db)) /\
  (forall l1 q1 l2,
     (carts db !! u) = Some (l1 ++ {| product := id; quantity := q1 |} :: l2) ->
     (id ∉ map product l1) ->
     let its' := l1 ++ {| product := id; quantity := q |} :: l2 in
     updateCart req db
     = (Json 200 (BCart {| cart_user := Unpopulated u; cart_items := map plain_item its' |}),
        set_carts (<[u := its']> (carts db)) (log (Write Carts) (log (Read Carts) db)))).
Proof.
  intros Hh Hacc Hcast u. apply accepts_no_error in Hacc as [Herr Hitem].
  assert (Hrun : updateCart req db =
    match (carts db !! u) with
    | None => (Json 404 (BError "Cart not found"), log (Read Carts) db)
    | Some its =>
        match find_index (fun item => equals (item_product item) s)
                         (map (plain_item (Category := Category)) its) with
        | inl e => (Next e, log (Read Carts) db)
        | inr None => (Json 404 (BError "Item not found in cart"), log (Read Carts) db)
        | inr (Some i) =>
            let cart := set_quantity i q {| cart_user := Unpopulated u;
                                            cart_items := map plain_item its |} in
            (Json 200 (BCart cart),
             set_carts (<[u := map item_of_doc (cart_items cart)]> (carts db))
                       (log (Write Carts) (log (Read Carts) db)))
        end
    end).
  { unfold updateCart, asyncHandler. cbn zeta. rewrite Herr, Hitem. unfold bind.
    rewrite Cart_findOne_healthy by done. fold u.
    destruct (carts db !! u) as [its|]; cbn; [|done].
    destruct (find_index _ _) as [e|[i|]]; cbn; [done| |done].
    rewrite Cart_save_healthy by done. reflexivity. }
  split; [|split].
  - intros Hnone. by rewrite Hrun, Hnone.
  - intros its Hsome Hnot. rewrite Hrun, Hsome.
    by rewrite find_index_absent by (by apply (plain_other _ _ id)).
  - intros l1 q1 l2 Hsome Hnot its'. rewrite Hrun, Hsome.
    rewrite map_app. cbn [map].
    rewrite find_index_first; [|by apply (plain_other _ _ id)|].
    + cbn zeta. unfold set_quantity. cbn [cart_user cart_items].
      rewrite alter_middle. unfold its'. rewrite !map_app. cbn [map].
      rewrite !item_of_plain. reflexivity.
    + cbn. rewrite (oid_equals_cast id) by done. f_equal. by apply bool_decide_eq_true.
Qed.

Lemma filter_other its s id :
  castObjectId s = Some id ->
  List.filter (fun it => negb (oid_equals (product it) s)) its
  = List.filter (fun it => negb (bool_decide (product it = id))) its.
Proof.
  intros Hc. apply List.filter_ext. intros it. by rewrite (oid_equals_cast id).
Qed.

Lemma filter_absent id its :
  (id ∉ map product its) ->
  List.filter (fun it => negb (bool_decide (product it = id))) its = its.
Proof.
  induction its as [|it its IH]; cbn; [done|]. intros Hn.
  apply not_elem_of_cons in Hn as [Hne Hn].
  rewrite bool_decide_eq_false_2 by congruence. cbn. by rewrite IH.
Qed.

Lemma filter_removes id its :
  id ∉ map product (List.filter (fun it => negb (bool_decide (product it = id))) its).
Proof.
  intros Hin. apply list_elem_of_In, in_map_iff in Hin as (it & Hid & Hin).
  apply filter_In in Hin as [_ Hb]. apply negb_true_iff, bool_decide_eq_false in Hb.
  by apply Hb.
Qed.

Lemma filter_twice (keep : Item -> bool) its :
  List.filter keep (List.filter keep its) = List.filter keep its.
Proof.
  induction its as [|it its IH]; cbn; [done|].
  destruct (keep it) eqn:Hk; cbn; [|done]. by rewrite Hk, IH.
Qed.

(** [removeFromCart] on a healthy store. *)
Lemma removeFromCart_healthy (req : RemoveRequest) db :
  healthy db ->
  removeFromCart req db =
  match (carts db !! rm_user req) with
  | None => (Json 404 (BError "Cart not found"), log (Read Carts) db)
  | Some its =>
      let its' := List.filter (fun it => negb (oid_equals (product it) (rm_productId req)))
                              its in
      (Json 200 (BCart {| cart_user := Unpopulated (rm_user req);
                          cart_items := map plain_item its' |}),
       set_carts (<[rm_user req := its']> (carts db))
                 (log (Write Carts) (log (Read Carts) db)))
  end.
Proof.
  intros Hh. unfold removeFromCart, asyncHandler. cbn zeta. unfold bind.
  rewrite Cart_findOne_healthy by done.
  destruct (carts db !! rm_user req) as [its|]; cbn; [|done].
  rewrite js_filter_plain. rewrite Cart_save_healthy by done.
  cbn. by rewrite item_of_plain.
Qed.

(** C5. On a healthy store [removeFromCart] answers 404 "Cart not found"
    when the user has no cart.  Otherwise it answers 200 with the cart
    without the items that reference the product and saves it; when no item
    references the product the carts are as before.  A second call gives
    the same response and leaves the same documents as the first. *)
Theorem removeFromCart_idempotent (req : RemoveRequest) id db :
  healthy db -> castObjectId (rm_productId req) = Some id ->
  let u := rm_user req in
  let once := removeFromCart req db in
  let twice := removeFromCart req once.2 in
  ((carts db !! u) = None ->
   once.1 = Json 404 (BError "Cart not found") /\ carts once.2 = carts db) /\
  (forall its, (carts db !! u) = Some its ->
     let its' := List.filter (fun it => negb (bool_decide (product it = id))) its in
     once.1 = Json 200 (BCart {| cart_user := Unpopulated u;
                                 cart_items := map plain_item its' |}) /\
     carts once.2 = <[u := its']> (carts db) /\
     ((id ∉ map product its) -> its' = its /\ carts once.2 = carts db)) /\
  twice.1 = once.1 /\ same_data once.2 twice.2.
Proof.
  intros Hh Hcast u once twice.
  pose proof (removeFromCart_healthy req db Hh) as Hrun. fold u once in Hrun.
  destruct (carts db !! u) as [its|] eqn:Hcart.
  - rewrite (filter_other _ _ id Hcast) in Hrun. cbn zeta in Hrun.
    set (its' := List.filter (fun it => negb (bool_decide (product it = id))) its) in *.
    assert (Hh2 : healthy once.2) by (by rewrite Hrun).
    pose proof (removeFromCart_healthy req once.2 Hh2) as Hrun2. fold u twice in Hrun2.
    assert (Hc2 : carts once.2 = <[u := its']> (carts db)) by (by rewrite Hrun).
    rewrite Hc2, lookup_insert_eq in Hrun2. cbn zeta in Hrun2.
    rewrite (filter_other _ _ id Hcast) in Hrun2.
    assert (Hidem : List.filter (fun it => negb (bool_decide (product it = id))) its' = its')
      by apply filter_twice.
    rewrite Hidem in Hrun2.
    split; [done|]. split.
    + intros ? [= <-]. fold its'. split; [by rewrite Hrun|]. split; [done|].
      intros Hn. pose proof (filter_absent id its Hn) as Hid. fold its' in Hid.
      split; [done|]. rewrite Hc2, Hid. by apply insert_id.
    + split; [by rewrite Hrun2, Hrun|].
      rewrite Hrun2. repeat split; cbn; try by rewrite Hrun.
      rewrite Hc2. apply insert_insert_eq.
  - assert (Hh2 : healthy once.2) by (by rewrite Hrun).
    pose proof (removeFromCart_healthy req once.2 Hh2) as Hrun2. fold u twice in Hrun2.
    assert (Hc2 : carts once.2 = carts db) by (by rewrite Hrun).
    rewrite Hc2, Hcart in Hrun2.
    split; [by rewrite Hrun|]. split; [done|].
    split; [by rewrite Hrun2, Hrun|]. rewrite Hrun2. by repeat split.
Qed.

(** C10. On a healthy store, whatever items the cart of the user holds,
    several for the same product included, the cart saved by
    [removeFromCart] holds no item that references the product, and holds
    every other item. *)
Theorem removeFromCart_removes_every_item (req : RemoveRequest) id its db :
  healthy db -> castObjectId (rm_productId req) = Some id ->
  (carts db !! rm_user req) = Some its ->
  exists its',
    (removeFromCart req db).1
    = Json 200 (BCart {| cart_user := Unpopulated (rm_user req);
                         cart_items := map plain_item its' |}) /\
    (carts (removeFromCart req db).2 !! rm_user req) = Some its' /\
    (id ∉ map product its') /\
    (forall it, In it its' <-> In it its /\ product it <> id).
Proof.
  intros Hh Hcast Hcart.
  rewrite (removeFromCart_healthy req db Hh), Hcart. cbn zeta.
  rewrite (filter_other _ _ id Hcast).
  eexists. split; [reflexivity|]. split; [|split].
  - cbn. apply lookup_insert_eq.
  - apply filter_removes.
  - intros it. rewrite filter_In, negb_true_iff, bool_decide_eq_false. tauto.
Qed.

(** C9. On a healthy store [updateCartForUser] replaces, in one call to the
    store, the items of the cart of the target user by the items of the
    request exactly as they are given, creating the cart when the user had
    none, and answers 200 with the resulting cart.  The items are neither
    merged nor validated: the statement holds for every sequence of items. *)
Theorem updateCartForUser_replaces (req : ReplaceRequest) u db :
  healthy db -> castObjectId (rp_userId req) = Some u ->
  let db' := set_carts (<[u := rp_items req]> (carts db)) (log (Write Carts) db) in
  let cart := {| cart_user := Unpopulated u;
                 cart_items := map (populate_item false db') (rp_items req) |} in
  updateCartForUser req db = (Json 200 (BCart cart), db') /\
  (carts db' !! u) = Some (rp_items req) /\
  map item_of_doc (cart_items cart) = rp_items req /\
  (forall u', u' <> u -> (carts db' !! u') = (carts db !! u')) /\
  trace db' = trace db ++ [ Write Carts ].
Proof.
  intros Hh Hcast db' cart. split; [|split; [|split; [|split]]].
  - unfold updateCartForUser, asyncHandler, Cart_findOneAndUpdate.
    rewrite Hcast, call_healthy by done. reflexivity.
  - cbn. apply lookup_insert_eq.
  - apply item_of_populated.
  - intros u' Hne. cbn. by apply lookup_insert_ne.
  - reflexivity.
Qed.

(** The exports of the cart controller do not include
    [updateCartForUser]: the second assignment to [module.exports]
    replaces the first. *)
Lemma updateCartForUser_not_exported :
  In "addToCart" module_exports /\ ~ In "updateCartForUser" module_exports.
Proof.
  cbn. split; [tauto|]. intros [E|[E|[E|[E|[]]]]]; discriminate E.
Qed.

(** ** [addToCart] on a healthy store *)

Lemma populated_other deep db its s id :
  castObjectId s = Some id -> (id ∉ map product its) ->
  Forall (fun it => is_Some (findProduct db (product it))) its ->
  Forall (fun d' => equals (item_product d') s = inr false)
         (map (populate_item deep db) its).
Proof.
  intros Hc. induction its as [|it its IH]; cbn; intros Hn Hr; constructor.
  - apply Forall_cons in Hr as [[p Hp] _]. unfold populate_item, equals. cbn.
    rewrite Hp. apply findProduct_id in Hp.
    destruct deep; cbn; unfold oid_equals; rewrite Hc; f_equal;
      apply bool_decide_eq_false; intros E; apply Hn;
      rewrite <- E, Hp; apply list_elem_of_here.
  - apply Forall_cons in Hr as [_ Hr]. apply IH; [|done].
    intros Hin. apply Hn. by apply list_elem_of_further.
Qed.


(** When the first item for the product, or an item before it, references a
    product that is not in the catalog, [find] throws on the [null] left by
    [populate]: the request ends in a [TypeError] and the cart is as it
    was. *)
Lemma addToCart_throws_on_unresolved (req : CartRequest) s q l1 it l2 db :
  healthy db -> accepts (req_body req) s q ->
  (carts db !! req_user req) = Some (l1 ++ it :: l2) ->
  Forall (fun d' => equals (item_product d') s = inr false)
         (map (populate_item true db) l1) ->
  findProduct db (product it) = None ->
  addToCart req db = (Next TypeError, log (Read Carts) db).
Proof.
  intros Hh Hacc Hcart Hbefore Hnone.
  apply accepts_no_error in Hacc as [Herr Hitem].
  unfold addToCart, asyncHandler. cbn zeta. rewrite Herr, Hitem. unfold bind.
  rewrite Cart_findOne_populated_healthy by done. rewrite Hcart. cbn [fmap option_fmap option_map].
  cbn [cart_items]. rewrite map_app. cbn [map].
  replace (find_index _ _) with (inl (B := option nat) TypeError); [done|].
  symmetry. clear Hcart.
  induction l1 as [|it1 l1 IH]; cbn [map app find_index].
  - unfold populate_item at 1, equals. cbn [item_product].
    change (findProduct (log (Read Carts) db) (product it))
      with (findProduct db (product it)).
    by rewrite Hnone.
  - cbn [map] in Hbefore. apply Forall_cons in Hbefore as [Hb Hbefore].
    change (populate_item true (log (Read Carts) db) it1)
      with (populate_item true db it1).
    rewrite Hb. by rewrite IH.
Qed.

(** ** The product schema *)

(** Among the errors of a required key, the messages that say a field is
    required: the one of the key when the key is missing, none otherwise. *)
Lemma required_string_key (k msg : string) (body : Js.object) :
  is_required_message msg = true ->
  is_required_message (Joi.default_message "string.base" k) = false ->
  is_required_message (Joi.default_message "string.empty" k) = false ->
  List.filter is_required_message
    (map Joi.message
       (fst (Joi.validate_key coerce_number k
               (Joi.messages (Joi.required Joi.string) [ ("any.required", msg) ])
               (Js.get k body))))
  = if Js.has_key k body then [] else [ msg ].
Proof.
  intros Hm Hb He. unfold Js.has_key.
  destruct (Js.get k body) as [[| | | |[|? ?]| |]|];
    cbn -[is_required_message Joi.default_message];
    rewrite ?Hm, ?Hb, ?He; reflexivity.
Qed.

Lemma required_number_key (k msg : string) (body : Js.object) :
  is_required_message msg = true ->
  is_required_message (Joi.default_message "number.base" k) = false ->
  is_required_message (Joi.default_message "number.infinity" k) = false ->
  is_required_message (Joi.default_message "number.unsafe" k) = false ->
  List.filter is_required_message
    (map Joi.message
       (fst (Joi.validate_key coerce_number k
               (Joi.messages (Joi.required Joi.number) [ ("any.required", msg) ])
               (Js.get k body))))
  = if Js.has_key k body then [] else [ msg ].
Proof.
  intros Hm Hb Hi Hu. unfold Js.has_key.
  destruct (Js.get k body) as [[| |q| |str| |]|];
    cbn -[is_required_message Joi.default_message];
    try (destruct (Js.is_safe q));
    try (destruct (coerce_number str) as [[q|]|]; try (destruct (Js.is_safe q)));
    cbn -[is_required_message Joi.default_message];
    rewrite ?Hm, ?Hb, ?Hi, ?Hu; reflexivity.
Qed.

Lemma optional_string_key (k : string) (body : Js.object) :
  is_required_message (Joi.default_message "string.base" k) = false ->
  is_required_message (Joi.default_message "string.empty" k) = false ->
  List.filter is_required_message
    (map Joi.message
       (fst (Joi.validate_key coerce_number k Joi.string (Js.get k body))))
  = [].
Proof.
  intros Hb He.
  destruct (Js.get k body) as [[| | | |[|? ?]| |]|];
    cbn -[is_required_message Joi.default_message];
    rewrite ?Hb, ?He; reflexivity.
Qed.

Lemma unknown_keys_not_required (sch : Joi.object_schema) (body : Js.object) :
  List.filter is_required_message (map Joi.message (Joi.unknown_keys sch body)) = [].
Proof.
  unfold Joi.unknown_keys. induction body as [|[k v] body IH]; cbn; [done|].
  destruct (Joi.in_schema sch k); cbn; [done|]. exact IH.
Qed.

Lemma product_validate_eq (body : Js.object) :
  Joi.details (Joi.validate coerce_number productSchema body) =
  let key k sch := fst (Joi.validate_key coerce_number k sch (Js.get k body)) in
  let req t m := Joi.messages (Joi.required t) [ ("any.required", m) ] in
  (key "name" (req Joi.string "Name is required")
   ++ key "description" (req Joi.string "Description is required")
   ++ key "price" (req Joi.number "Price is required")
   ++ key "category" (req Joi.string "Category is required")
   ++ key "stock" (req Joi.number "Stock is required")
   ++ key "image" Joi.string
   ++ key "brand" Joi.string ++ [])
  ++ Joi.unknown_keys productSchema body.
Proof.
  unfold Joi.validate, productSchema. cbn [Joi.validate_keys].
  repeat match goal with
         | |- context [Joi.validate_key ?c ?k ?sch ?v] =>
             destruct (Joi.validate_key c k sch v) as [? ?]
         end.
  reflexivity.
Qed.

(** The messages about required fields in the answer of [productSchema]
    are those of the missing fields, one each, in the order of the
    schema. *)
Lemma product_schema_missing (body : Js.object) :
  List.filter is_required_message
    (Joi.messages_of (Joi.validate coerce_number productSchema body))
  = map snd (missing_fields body).
Proof.
  unfold Joi.messages_of. rewrite product_validate_eq. cbn zeta.
  rewrite !map_app, !List.filter_app, unknown_keys_not_required.
  rewrite !required_string_key, !required_number_key, !optional_string_key by reflexivity.
  unfold missing_fields, required_fields. cbn.
  destruct (Js.has_key "name" body), (Js.has_key "description" body),
    (Js.has_key "price" body), (Js.has_key "category" body),
    (Js.has_key "stock" body); reflexivity.
Qed.

Lemma required_string_key_ok (k msg : string) (v : option Js.value) :
  fst (Joi.validate_key coerce_number k
         (Joi.messages (Joi.required Joi.string) [ ("any.required", msg) ]) v) = [] ->
  exists str, snd (Joi.validate_key coerce_number k
                     (Joi.messages (Joi.required Joi.string) [ ("any.required", msg) ]) v)
              = Some (Js.Str str).
Proof.
  destruct v as [[| | | |[|? ?]| |]|]; cbn; intros Hd; try discriminate Hd. eauto.
Qed.

Lemma required_number_key_ok (k msg : string) (v : option Js.value) :
  fst (Joi.validate_key coerce_number k
         (Joi.messages (Joi.required Joi.number) [ ("any.required", msg) ]) v) = [] ->
  exists q, snd (Joi.validate_key coerce_number k
                   (Joi.messages (Joi.required Joi.number) [ ("any.required", msg) ]) v)
            = Some (Js.Num q).
Proof.
  destruct v as [[| |q| |str| |]|]; cbn; try discriminate.
  - destruct (Js.is_safe q); cbn; [eauto|discriminate].
  - destruct (coerce_number str) as [[q|]|]; cbn; try discriminate.
    destruct (Js.is_safe q); cbn; [eauto|discriminate].
Qed.

Lemma optional_string_key_ok (k : string) (v : option Js.value) :
  fst (Joi.validate_key coerce_number k Joi.string v) = [] ->
  snd (Joi.validate_key coerce_number k Joi.string v) = None \/
  exists str, snd (Joi.validate_key coerce_number k Joi.string v) = Some (Js.Str str).
Proof.
  destruct v as [[| | | |[|? ?]| |]|]; cbn; intros Hd; try discriminate Hd; eauto.
Qed.

(** A body that passes [productSchema] yields the fields of a product: the
    handlers never fail to read the validated value. *)
Lemma product_schema_accepts (body : Js.object) :
  Joi.details (Joi.validate coerce_number productSchema body) = [] ->
  exists input,
    product_input_of (Joi.value (Joi.validate coerce_number productSchema body))
    = Some input.
Proof.
  unfold Joi.validate, productSchema. cbn [Joi.validate_keys].
  pose proof (required_string_key_ok "name" "Name is required" (Js.get "name" body)) as Hn.
  pose proof (required_string_key_ok "description" "Description is required"
                (Js.get "description" body)) as Hd.
  pose proof (required_number_key_ok "price" "Price is required" (Js.get "price" body)) as Hp.
  pose proof (required_string_key_ok "category" "Category is required"
                (Js.get "category" body)) as Hc.
  pose proof (required_number_key_ok "stock" "Stock is required" (Js.get "stock" body)) as Hs.
  pose proof (optional_string_key_ok "image" (Js.get "image" body)) as Hi.
  pose proof (optional_string_key_ok "brand" (Js.get "brand" body)) as Hb.
  repeat match goal with
         | |- context [Joi.validate_key ?c ?k ?sch ?v] =>
             destruct (Joi.validate_key c k sch v) as [? ?]
         end.
  cbn [fst snd Joi.details Joi.value] in *. intros Hnil.
  repeat match goal with
         | H : _ ++ _ = [] |- _ => apply app_eq_nil in H as [? ?]
         end.
  destruct Hn as [? ->]; [done|]. destruct Hd as [? ->]; [done|].
  destruct Hp as [? ->]; [done|]. destruct Hc as [? ->]; [done|].
  destruct Hs as [? ->]; [done|].
  destruct Hi as [->|[? ->]]; [done| |]; (destruct Hb as [->|[? ->]]; [done| |]);
    cbn; eauto.
Qed.

Lemma filter_eqb_required (m : string) (l : list string) :
  is_required_message m = true ->
  List.filter (String.eqb m) (List.filter is_required_message l)
  = List.filter (String.eqb m) l.
Proof.
  intros Hm. induction l as [|e l IH]; cbn [List.filter]; [done|].
  destruct (is_required_message e) eqn:He; cbn [List.filter];
    [destruct (String.eqb m e); by rewrite IH|].
  destruct (String.eqb m e) eqn:Hme; [|done].
  apply String.eqb_eq in Hme. congruence.
Qed.

Lemma missing_field_once (body : Js.object) (k m : string) :
  In (k, m) (missing_fields body) ->
  is_required_message m = true /\
  length (List.filter (String.eqb m) (map snd (missing_fields body))) = 1%nat.
Proof.
  unfold missing_fields, required_fields. cbn.
  destruct (Js.has_key "name" body), (Js.has_key "description" body),
    (Js.has_key "price" body), (Js.has_key "category" body),
    (Js.has_key "stock" body); cbn;
    intros Hin; repeat (destruct Hin as [[= <- <-]|Hin]; [by split|]); destruct Hin.
Qed.

(** C6. [createProduct] and [updateProduct] answer a payload that lacks a
    required field of a product with status 400 and the list of all the
    messages of the validation, and leave the store as it was, its trace
    included: nothing is read or written.  In that list the messages about
    required fields are those of the missing fields, in the order of the
    schema, and the message of each missing field occurs exactly once. *)
Theorem product_validation (new_id : ObjectId) (id : string) (body : Js.object) db :
  missing_fields body <> [] ->
  let errors := Joi.messages_of (Joi.validate coerce_number productSchema body) in
  createProduct new_id body db = (Json 400 (BErrorList errors), db) /\
  updateProduct id body db = (Json 400 (BErrorList errors), db) /\
  List.filter is_required_message errors = map snd (missing_fields body) /\
  (forall k m, In (k, m) (missing_fields body) ->
               length (List.filter (String.eqb m) errors) = 1%nat).
Proof.
  intros Hmiss errors.
  pose proof (product_schema_missing body) as Hfilter. fold errors in Hfilter.
  assert (Herr : has_error (Joi.validate coerce_number productSchema body) = true).
  { unfold has_error. destruct (Joi.details _) eqn:Hd; [|done].
    destruct (missing_fields body) eqn:Hm; [done|].
    unfold errors, Joi.messages_of in Hfilter. rewrite Hd in Hfilter.
    discriminate Hfilter. }
  split; [|split; [|split]].
  - unfold createProduct, asyncHandler. cbn zeta. by rewrite Herr.
  - unfold updateProduct, asyncHandler. cbn zeta. by rewrite Herr.
  - exact Hfilter.
  - intros k m Hin. destruct (missing_field_once _ _ _ Hin) as [Hm Hone].
    by rewrite <- (filter_eqb_required m errors Hm), Hfilter.
Qed.

(** ** The catalog queries *)

Lemma Product_find_healthy (keep : Product -> bool) db :
  healthy db ->
  Product_find keep db
  = (inr (map (populate_category db) (List.filter keep (products db))),
     log (Read Products) db).
Proof. intros Hh. unfold Product_find. by rewrite call_healthy. Qed.

Lemma Product_find_cases (keep : Product -> bool) db :
  exists db1, same_data db db1 /\
    (Product_find keep db = (inl StoreError, db1) \/
     exists ps, Product_find keep db = (inr ps, db1)).
Proof.
  unfold Product_find.
  destruct (call_cases (Read Products)
              (fun db0 : Store =>
                 (map (populate_category db0) (List.filter keep (products db0)), db0)) db)
    as (db1 & Hs & [E|E]); exists db1; (split; [done|]); [by left|right].
  rewrite E. eauto.
Qed.

(** C8. [getProductsByCategory] never answers 404, whatever the store does:
    a failure of the store or of the cast of the identifier is thrown to
    [next].  On a healthy store, for the identifier of a category, it
    answers 200 with the products whose category is that identifier, each
    with its category resolved, and with their number; with no such
    product the answer is 200 with count 0. *)
Theorem getProductsByCategory_succeeds (categoryId : string) db :
  (forall body, (getProductsByCategory categoryId db).1 <> Json 404 body) /\
  (forall c, healthy db -> castObjectId categoryId = Some c ->
     let found := List.filter (fun p => bool_decide (category p = c)) (products db) in
     getProductsByCategory categoryId db
     = (Json 200 (BProducts (length found) (map (populate_category db) found)),
        log (Read Products) db) /\
     (found = [] -> (getProductsByCategory categoryId db).1 = Json 200 (BProducts 0 []))) /\
  (forall c fs, castObjectId categoryId = Some c -> faults db = true :: fs ->
     (getProductsByCategory categoryId db).1 = Next StoreError) /\
  (castObjectId categoryId = None ->
     (getProductsByCategory categoryId db).1 = Next CastError).
Proof.
  split; [|split; [|split]].
  - intros body. unfold getProductsByCategory, asyncHandler, bind, Product_find_category.
    destruct (castObjectId categoryId) as [c|]; [|done].
    destruct (Product_find_cases (fun p => bool_decide (category p = c)) db)
      as (db1 & _ & [E|(ps & E)]); rewrite E; done.
  - intros c Hh Hcast found.
    assert (Hrun : getProductsByCategory categoryId db
                   = (Json 200 (BProducts (length found) (map (populate_category db) found)),
                      log (Read Products) db)).
    { unfold getProductsByCategory, asyncHandler, bind, Product_find_category.
      rewrite Hcast, Product_find_healthy by done. cbn. by rewrite length_map. }
    split; [done|]. intros Hempty. rewrite Hrun. cbn. by rewrite Hempty.
  - intros c fs Hcast Hfault.
    unfold getProductsByCategory, asyncHandler, bind, Product_find_category, Product_find, call.
    rewrite Hcast. cbn. by rewrite Hfault.
  - intros Hcast.
    unfold getProductsByCategory, asyncHandler, bind, Product_find_category.
    by rewrite Hcast.
Qed.

(** ** Searching by name *)

Lemma eq_caseless_spec (c d : ascii) :
  Pcre.eq_caseless c d = true <-> Pcre.to_lower c = Pcre.to_lower d.
Proof. unfold Pcre.eq_caseless. apply Ascii.eqb_eq. Qed.

Lemma prefix_caseless_spec (term n : string) :
  prefix_caseless term n = true <-> exists post, lower n = lower term +:+ post.
Proof.
  revert n. induction term as [|c term IH]; intros n; cbn.
  - split; [eauto|done].
  - destruct n as [|d n]; cbn.
    + split; [done|]. intros [post Hp]. discriminate Hp.
    + rewrite andb_true_iff, eq_caseless_spec, IH. split.
      * intros [Hc [post Hp]]. exists post. by rewrite Hc, Hp.
      * intros [post Hp]. injection Hp as Hc Hp. eauto.
Qed.

(** The boolean test decides the occurrence of the term in the name. *)
Lemma contains_caseless_spec (term n : string) :
  contains_caseless term n = true <-> occurs_caseless term n.
Proof.
  unfold occurs_caseless. induction n as [|d n IH].
  - simpl contains_caseless. rewrite orb_false_r, prefix_caseless_spec. split.
    + intros [post Hp]. by exists "", post.
    + intros (pre & post & Hp). destruct pre; [eauto|discriminate Hp].
  - simpl contains_caseless. rewrite orb_true_iff, prefix_caseless_spec, IH. split.
    + intros [[post Hp]|(pre & post & Hp)].
      * by exists "", post.
      * exists (String (Pcre.to_lower d) pre), post. cbn. by rewrite Hp.
    + intros (pre & post & Hp). destruct pre as [|a pre].
      * left. eauto.
      * right. cbn in Hp. injection Hp as _ Hp. eauto.
Qed.

Lemma parse_atoms_literal (term : string) :
  no_metachar term = true ->
  exists a, Pcre.parse_atoms term = Some a /\
            forall n, Pcre.match_here a n = prefix_caseless term n.
Proof.
  induction term as [|c term IH]; cbn [no_metachar Pcre.parse_atoms].
  - intros _. exists []. split; [done|]. by intros [|].
  - rewrite andb_true_iff, negb_true_iff. intros [Hc Hterm].
    destruct (IH Hterm) as (a & Ha & Hmatch).
    assert (Hdot : Ascii.eqb c "."%char = false).
    { destruct (Ascii.eqb c "."%char) eqn:E; [|done].
      apply Ascii.eqb_eq in E. by subst. }
    rewrite Hdot, Hc, Ha. exists (Pcre.Lit c :: a). split; [done|].
    intros [|d n]; cbn; [done|]. by rewrite Hmatch.
Qed.

(** A term without metacharacters compiles to the pattern that looks for
    the term, case ignored, anywhere in the subject. *)
Lemma compile_literal (term : string) :
  no_metachar term = true ->
  exists r, Pcre.compile term = Some r /\
            forall n, Pcre.test r n = contains_caseless term n.
Proof.
  intros Hterm. destruct (parse_atoms_literal term Hterm) as (a & Ha & Hmatch).
  exists {| Pcre.anchored := false; Pcre.atoms := a |}. split.
  - unfold Pcre.compile. destruct term as [|c term]; [by rewrite Ha|].
    destruct (Ascii.eqb c "^"%char) eqn:E.
    + apply Ascii.eqb_eq in E. subst. discriminate Hterm.
    + rewrite Ha. destruct c as [[] [] [] [] [] [] [] []]; try reflexivity.
      discriminate E.
  - intros n. unfold Pcre.test. cbn.
    induction n as [|d n IH]; cbn; rewrite Hmatch; [done|]. by rewrite IH.
Qed.

Lemma contains_empty (n : string) : contains_caseless "" n = true.
Proof. by destruct n. Qed.

Lemma filter_all {A} (keep : A -> bool) (l : list A) :
  (forall x, keep x = true) -> List.filter keep l = l.
Proof.
  intros Hk. induction l as [|x l IH]; cbn; [done|]. by rewrite Hk, IH.
Qed.

(** C7, as the code has it.  On a healthy store, for a search term without
    metacharacter of the regular expressions, [getProducts] answers 200
    with the products whose name contains the term when the case of the
    ASCII letters is ignored, each with its category resolved, and with
    their number; without a term, or with the empty term, these are all
    the products. *)
Theorem getProducts_literal_search (search : option string) db :
  healthy db ->
  (forall term, search = Some term -> no_metachar term = true) ->
  let term := default "" search in
  let found := List.filter (fun p => contains_caseless term (name p)) (products db) in
  (exists handler,
     getProducts search = Some handler /\
     handler db = (Json 200 (BProducts (length found) (map (populate_category db) found)),
                   log (Read Products) db)) /\
  (forall p, In p found <-> In p (products db) /\ occurs_caseless term (name p)) /\
  (term = "" -> found = products db).
Proof.
  intros Hh Hterm term found. split; [|split].
  - assert (Hall : forall keep : Product -> bool,
              (forall p, keep p = contains_caseless term (name p)) ->
              asyncHandler (bind (Product_find keep)
                (fun products => ret (Json 200 (BProducts (length products) products)))) db
              = (Json 200 (BProducts (length found) (map (populate_category db) found)),
                 log (Read Products) db)).
    { intros keep Hkeep. unfold asyncHandler, bind.
      rewrite Product_find_healthy by done. cbn.
      rewrite length_map, (List.filter_ext _ _ Hkeep). reflexivity. }
    unfold getProducts. cbn zeta. destruct search as [s0|]; cbn in term.
    + destruct (Js.truthy_string s0) eqn:Htruthy.
      * destruct (compile_literal s0 (Hterm _ eq_refl)) as (r & Hr & Htest).
        rewrite Hr. cbn. eexists. split; [reflexivity|].
        apply Hall. intros p. apply Htest.
      * destruct s0; [|discriminate Htruthy].
        eexists. split; [reflexivity|]. apply Hall. intros p. by rewrite contains_empty.
    + eexists. split; [reflexivity|]. apply Hall. intros p. by rewrite contains_empty.
  - intros p. unfold found. by rewrite filter_In, contains_caseless_spec.
  - intros Hempty. unfold found. rewrite Hempty. apply filter_all.
    intros p. apply contains_empty.
Qed.

(** * Further properties of the cart controller *)

(** ** The three branches of [addToCart] on a healthy store *)

Lemma addToCart_create_run (req : CartRequest) s q id db :
  healthy db -> accepts (req_body req) s q -> castObjectId s = Some id ->
  (carts db !! req_user req) = None ->
  addToCart req db
  = (Json 200 (BCart {| cart_user := Unpopulated (req_user req);
                        cart_items := [ plain_item {| product := id; quantity := q |} ] |}),
     set_carts (<[req_user req := [ {| product := id; quantity := q |} ]]> (carts db))
               (log (Write Carts) (log (Read Carts) db))).
Proof.
  intros Hh Hacc Hcast Hcart. apply accepts_no_error in Hacc as [Herr Hitem].
  unfold addToCart, asyncHandler. cbn zeta. rewrite Herr, Hitem. unfold bind.
  rewrite Cart_findOne_populated_healthy by done. rewrite Hcart.
  cbn [fmap option_fmap option_map]. unfold Cart_create, cast_item. cbn [mapM fst snd].
  rewrite Hcast. cbn. by rewrite call_healthy.
Qed.

Lemma addToCart_append_run (req : CartRequest) s q id its db :
  healthy db -> accepts (req_body req) s q -> castObjectId s = Some id ->
  (carts db !! req_user req) = Some its -> (id ∉ map product its) ->
  Forall (fun it => is_Some (findProduct db (product it))) its ->
  addToCart req db
  = (Json 200 (BCart (push_item id q
                        {| cart_user := Populated (req_user req) (users db !! req_user req);
                           cart_items := map (populate_item true db) its |})),
     set_carts (<[req_user req := its ++ [ {| product := id; quantity := q |} ]]> (carts db))
               (log (Write Carts) (log (Read Carts) db))).
Proof.
  intros Hh Hacc Hcast Hcart Hnot Hres. apply accepts_no_error in Hacc as [Herr Hitem].
  unfold addToCart, asyncHandler. cbn zeta. rewrite Herr, Hitem. unfold bind.
  rewrite Cart_findOne_populated_healthy by done. rewrite Hcart.
  cbn [fmap option_fmap option_map cart_items].
  change (populate_item true (log (Read Carts) db)) with (populate_item true db).
  rewrite find_index_absent by (by apply (populated_other _ _ _ _ id)).
  rewrite Hcast. rewrite Cart_save_healthy by done. cbn [fst snd].
  unfold push_item. cbn [cart_user cart_items ref_id].
  by rewrite map_app, item_of_populated.
Qed.

(** X2. On a healthy store, for a user without cart and a valid payload
    whose product string is an identifier, [addToCart] creates the cart
    with that single item and answers 200 with it, unpopulated.  The
    catalog is not consulted: the store is called twice, on the carts
    only, whether or not the product exists. *)
Theorem addToCart_creates_cart (req : CartRequest) s q id db :
  healthy db -> accepts (req_body req) s q -> castObjectId s = Some id ->
  (carts db !! req_user req) = None ->
  let out := addToCart req db in
  out.1 = Json 200 (BCart {| cart_user := Unpopulated (req_user req);
                             cart_items := [ plain_item {| product := id; quantity := q |} ] |}) /\
  (carts out.2 !! req_user req) = Some [ {| product := id; quantity := q |} ] /\
  (forall u, u <> req_user req -> (carts out.2 !! u) = (carts db !! u)) /\
  products out.2 = products db /\
  trace out.2 = trace db ++ [ Read Carts; Write Carts ].
Proof.
  intros Hh Hacc Hcast Hcart out. unfold out.
  rewrite (addToCart_create_run req s q id db) by done. cbn [fst snd].
  split; [done|]. split; [apply lookup_insert_eq|]. split.
  - intros u Hu. cbn. by apply lookup_insert_ne.
  - split; [done|]. cbn. by rewrite <- app_assoc.
Qed.

(** X3. On a healthy store, when the cart of the user holds no item for the
    product and all its items reference products of the catalog,
    [addToCart] appends the item at the end of the cart, leaves the other
    items and their order as they were, and answers 200. *)
Theorem addToCart_appends (req : CartRequest) s q id its db :
  healthy db -> accepts (req_body req) s q -> castObjectId s = Some id ->
  (carts db !! req_user req) = Some its -> (id ∉ map product its) ->
  Forall (fun it => is_Some (findProduct db (product it))) its ->
  let out := addToCart req db in
  (exists cart, out.1 = Json 200 (BCart cart) /\
                map item_of_doc (cart_items cart)
                = its ++ [ {| product := id; quantity := q |} ]) /\
  (carts out.2 !! req_user req) = Some (its ++ [ {| product := id; quantity := q |} ]) /\
  (forall u, u <> req_user req -> (carts out.2 !! u) = (carts db !! u)).
Proof.
  intros Hh Hacc Hcast Hcart Hnot Hres out. unfold out.
  rewrite (addToCart_append_run req s q id its db) by done. cbn [fst snd].
  split; [|split].
  - eexists. split; [reflexivity|]. unfold push_item. cbn [cart_items].
    by rewrite map_app, item_of_populated.
  - apply lookup_insert_eq.
  - intros u Hu. cbn. by apply lookup_insert_ne.
Qed.

(** X5. On a healthy store, when an item of the cart references a product
    that is not in the catalog, and the items before it reference products
    of the catalog other than the requested one, [addToCart] ends in a
    [TypeError] handed to [next]; the store is read once and not written.
    The item need not be the one for the requested product. *)
Theorem addToCart_blocked_by_missing_product (req : CartRequest) s q id l1 it l2 db :
  healthy db -> accepts (req_body req) s q -> castObjectId s = Some id ->
  (carts db !! req_user req) = Some (l1 ++ it :: l2) ->
  (id ∉ map product l1) ->
  Forall (fun it' => is_Some (findProduct db (product it'))) l1 ->
  findProduct db (product it) = None ->
  addToCart req db = (Next TypeError, log (Read Carts) db).
Proof.
  intros Hh Hacc Hcast Hcart Hnot Hres Hnone.
  apply (addToCart_throws_on_unresolved req s q l1 it l2 db); try done.
  by apply (populated_other _ _ _ _ id).
Qed.

(** ** Responses and writes of the cart handlers, on any store *)

Lemma not_200 (status : nat) (body body' : Body (ObjectId := ObjectId)
                                                 (Category := Category) (User := User)) :
  status <> 200%nat -> Json status body <> Json 200 body'.
Proof. intros Hs [= E _]. by apply Hs. Qed.

Lemma addToCart_outcome (req : CartRequest) db :
  let out := addToCart req db in
  products out.2 = products db /\ categories out.2 = categories db /\
  users out.2 = users db /\
  ((exists cart, out.1 = Json 200 (BCart cart) /\
                 carts out.2 = <[req_user req := map item_of_doc (cart_items cart)]> (carts db)) \/
   ((forall body, out.1 <> Json 200 body) /\ carts out.2 = carts db)).
Proof.
  unfold addToCart, asyncHandler. cbn zeta.
  destruct (has_error _) eqn:Herr.
  { cbn. repeat split; try done. right. split; [|done]. intros body. by apply not_200. }
  destruct (cart_item_of _) as [[s q]|] eqn:Hitem.
  2:{ cbn. repeat split; try done. right. by split. }
  unfold bind.
  store_step (Cart_findOne_populated_cases (req_user req) db);
    destruct Hs as (Hc1 & Hp1 & Hg1 & Hu1).
  { repeat split; try done. right. by split. }
  destruct (carts db !! req_user req) as [its|] eqn:Hcart; cbn [fmap option_fmap option_map].
  - destruct (find_index _ _) as [e|[i|]] eqn:Hfind; cbn.
    + repeat split; try done. right. by split.
    + match goal with
      | |- context [Cart_save ?c ?d] => store_step (Cart_save_cases c d)
      end; destruct Hs as (Hc2 & Hp2 & Hg2 & Hu2).
      * repeat split; try congruence. right. split; [done|congruence].
      * cbn. repeat split; try congruence. left. eexists. split; [reflexivity|].
        cbn. by rewrite Hc1.
    + destruct (castObjectId s) as [id|] eqn:Hcast; cbn.
      2:{ repeat split; try done. right. by split. }
      match goal with
      | |- context [Cart_save ?c ?d] => store_step (Cart_save_cases c d)
      end; destruct Hs as (Hc2 & Hp2 & Hg2 & Hu2).
      * repeat split; try congruence. right. split; [done|congruence].
      * cbn. repeat split; try congruence. left. eexists. split; [reflexivity|].
        cbn. by rewrite Hc1.
  - destruct (castObjectId s) as [id|] eqn:Hcast.
    + store_step (Cart_create_cases (req_user req) s q id db1 Hcast);
        destruct Hs as (Hc2 & Hp2 & Hg2 & Hu2).
      * repeat split; try congruence. right. split; [done|congruence].
      * cbn. repeat split; try congruence. left. eexists. split; [reflexivity|].
        cbn. by rewrite Hc1.
    + rewrite Cart_create_uncastable by done. cbn.
      repeat split; try done. right. by split.
Qed.

Lemma updateCart_outcome (req : CartRequest) db :
  let out := updateCart req db in
  products out.2 = products db /\ categories out.2 = categories db /\
  users out.2 = users db /\
  ((exists cart, out.1 = Json 200 (BCart cart) /\
                 carts out.2 = <[req_user req := map item_of_doc (cart_items cart)]> (carts db)) \/
   ((forall body, out.1 <> Json 200 body) /\ carts out.2 = carts db)).
Proof.
  unfold updateCart, asyncHandler. cbn zeta.
  destruct (has_error _) eqn:Herr.
  { cbn. repeat split; try done. right. split; [|done]. intros body. by apply not_200. }
  destruct (cart_item_of _) as [[s q]|] eqn:Hitem.
  2:{ cbn. repeat split; try done. right. by split. }
  unfold bind.
  store_step (Cart_findOne_cases (req_user req) db);
    destruct Hs as (Hc1 & Hp1 & Hg1 & Hu1).
  { repeat split; try done. right. by split. }
  destruct (carts db !! req_user req) as [its|] eqn:Hcart; cbn [fmap option_fmap option_map].
  2:{ cbn. repeat split; try done. right. split; [|done]. intros body. by apply not_200. }
  destruct (find_index _ _) as [e|[i|]] eqn:Hfind; cbn.
  - repeat split; try done. right. by split.
  - match goal with
    | |- context [Cart_save ?c ?d] => store_step (Cart_save_cases c d)
    end; destruct Hs as (Hc2 & Hp2 & Hg2 & Hu2).
    + repeat split; try congruence. right. split; [done|congruence].
    + cbn. repeat split; try congruence. left. eexists. split; [reflexivity|].
      cbn. by rewrite Hc1.
  - repeat split; try done. right. split; [|done]. intros body. by apply not_200.
Qed.

Lemma removeFromCart_outcome (req : RemoveRequest) db :
  let out := removeFromCart req db in
  products out.2 = products db /\ categories out.2 = categories db /\
  users out.2 = users db /\
  ((exists cart, out.1 = Json 200 (BCart cart) /\
                 carts out.2 = <[rm_user req := map item_of_doc (cart_items cart)]> (carts db)) \/
   ((forall body, out.1 <> Json 200 body) /\ carts out.2 = carts db)).
Proof.
  unfold removeFromCart, asyncHandler. cbn zeta. unfold bind.
  store_step (Cart_findOne_cases (rm_user req) db);
    destruct Hs as (Hc1 & Hp1 & Hg1 & Hu1).
  { repeat split; try done. right. by split. }
  destruct (carts db !! rm_user req) as [its|] eqn:Hcart; cbn.
  2:{ repeat split; try done. right. split; [|done]. intros body. by apply not_200. }
  rewrite js_filter_plain.
  match goal with
  | |- context [Cart_save ?c ?d] => store_step (Cart_save_cases c d)
  end; destruct Hs as (Hc2 & Hp2 & Hg2 & Hu2).
  - repeat split; try congruence. right. split; [done|congruence].
  - cbn. repeat split; try congruence. left. eexists. split; [reflexivity|].
    cbn. by rewrite Hc1.
Qed.

(** X6. Whatever the request and whatever the store does, a request served
    by [addToCart], [updateCart] or [removeFromCart] leaves the products,
    the categories, the users and the carts of the other users as they
    were.  It either answers 200 with a cart, and then the cart saved for
    the user is the cart of the answer, or it answers otherwise (400, 404
    or an error handed to [next]) and then no cart has changed. *)
Theorem cart_request_outcome (op : CartOp) db :
  let out := run_op op db in
  products out.2 = products db /\ categories out.2 = categories db /\
  users out.2 = users db /\
  (forall u, u <> op_user op -> (carts out.2 !! u) = (carts db !! u)) /\
  ((exists cart, out.1 = Json 200 (BCart cart) /\
                 (carts out.2 !! op_user op) = Some (map item_of_doc (cart_items cart))) \/
   ((forall body, out.1 <> Json 200 body) /\ carts out.2 = carts db)).
Proof.
  assert (Hgen : forall (h : Handler) u,
    (let out := h db in
     products out.2 = products db /\ categories out.2 = categories db /\
     users out.2 = users db /\
     ((exists cart, out.1 = Json 200 (BCart cart) /\
                    carts out.2 = <[u := map item_of_doc (cart_items cart)]> (carts db)) \/
      ((forall body, out.1 <> Json 200 body) /\ carts out.2 = carts db))) ->
    let out := h db in
    products out.2 = products db /\ categories out.2 = categories db /\
    users out.2 = users db /\
    (forall u', u' <> u -> (carts out.2 !! u') = (carts db !! u')) /\
    ((exists cart, out.1 = Json 200 (BCart cart) /\
                   (carts out.2 !! u) = Some (map item_of_doc (cart_items cart))) \/
     ((forall body, out.1 <> Json 200 body) /\ carts out.2 = carts db))).
  { intros h u (Hp & Hg & Hu & Hcase) out. subst out. repeat split; try done.
    - intros u' Hne. destruct Hcase as [(cart & _ & ->)|[_ ->]]; [|done].
      by apply lookup_insert_ne.
    - destruct Hcase as [(cart & Hr & Hc)|Hno]; [left|by right].
      exists cart. split; [done|]. rewrite Hc. apply lookup_insert_eq. }
  destruct op as [req|req|req]; cbn [run_op op_user]; apply Hgen.
  - apply addToCart_outcome.
  - apply updateCart_outcome.
  - apply removeFromCart_outcome.
Qed.

Lemma run_op_carts (op : CartOp) db :
  carts (run_op op db).2 = carts db \/
  exists its, carts (run_op op db).2 = <[op_user op := its]> (carts db).
Proof.
  destruct op as [req|req|req]; cbn [run_op op_user].
  - destruct (addToCart_outcome req db) as (_ & _ & _ & [(cart & _ & E)|[_ E]]); eauto.
  - destruct (updateCart_outcome req db) as (_ & _ & _ & [(cart & _ & E)|[_ E]]); eauto.
  - destruct (removeFromCart_outcome req db) as (_ & _ & _ & [(cart & _ & E)|[_ E]]); eauto.
Qed.

(** X7. No sequence of requests served by [addToCart], [updateCart] and
    [removeFromCart] deletes a cart: a user who has a cart still has one
    afterwards, be it empty. *)
Theorem carts_are_never_deleted (ops : list CartOp) db u :
  is_Some (carts db !! u) -> is_Some (carts (run_ops ops db) !! u).
Proof.
  unfold run_ops. revert db. induction ops as [|op ops IH]; intros db Hu; cbn; [done|].
  apply IH. destruct (run_op_carts op db) as [->|(its & ->)]; [done|].
  destruct (decide (op_user op = u)) as [->|Hne].
  - rewrite lookup_insert_eq. eauto.
  - by rewrite lookup_insert_ne.
Qed.

(** X8. Whatever the request and whatever the store does, [updateCart]
    changes quantities only: every user has the same cart or no cart as
    before, with the same products in the same order.  It creates no cart
    and adds or removes no item. *)
Theorem updateCart_keeps_products (req : CartRequest) db u :
  map product <$> (carts (updateCart req db).2 !! u)
  = map product <$> (carts db !! u).
Proof.
  destruct (updateCart_carts req db)
    as [->|(s & q & id & l1 & q1 & l2 & _ & _ & Hsome & _ & ->)]; [done|].
  destruct (decide (req_user req = u)) as [<-|Hne].
  - rewrite lookup_insert_eq, Hsome. cbn. by rewrite !product_middle.
  - by rewrite lookup_insert_ne.
Qed.

(** ** [updateCartForUser] *)

Lemma updateCartForUser_run (req : ReplaceRequest) u db :
  healthy db -> castObjectId (rp_userId req) = Some u ->
  updateCartForUser req db
  = (Json 200 (BCart {| cart_user := Unpopulated u;
                        cart_items := map (populate_item false db) (rp_items req) |}),
     set_carts (<[u := rp_items req]> (carts db)) (log (Write Carts) db)).
Proof.
  intros Hh Hcast. unfold updateCartForUser, asyncHandler, Cart_findOneAndUpdate.
  rewrite Hcast, call_healthy by done. reflexivity.
Qed.


(** X10. On a healthy store, the last replacement wins: after two calls of
    [updateCartForUser] for the same user the carts are those that the
    second call alone would leave, and the cart of the user holds the
    items of the second request.  In particular a repeated request changes
    no cart. *)
Theorem updateCartForUser_last_wins (r1 r2 : ReplaceRequest) u db :
  healthy db ->
  castObjectId (rp_userId r1) = Some u -> castObjectId (rp_userId r2) = Some u ->
  let db1 := (updateCartForUser r1 db).2 in
  carts (updateCartForUser r2 db1).2 = carts (updateCartForUser r2 db).2 /\
  (carts (updateCartForUser r2 db1).2 !! u) = Some (rp_items r2).
Proof.
  intros Hh H1 H2 db1. unfold db1.
  rewrite (updateCartForUser_run r1 u db Hh H1). cbn [snd].
  rewrite (updateCartForUser_run r2 u db Hh H2).
  rewrite (updateCartForUser_run r2 u) by done. cbn.
  split; [apply insert_insert_eq|]. by rewrite insert_insert_eq, lookup_insert_eq.
Qed.

(** ** Adding and removing *)

(** X11. On a healthy store, for a product that the cart does not hold
    yet, a request to [addToCart] followed by a request to [removeFromCart]
    for the same product gives back the carts as they were, when the user
    had a cart whose items reference products of the catalog; when the
    user had no cart, an empty cart is left. *)
Theorem addToCart_then_removeFromCart (req : CartRequest) s q id db :
  healthy db -> accepts (req_body req) s q -> castObjectId s = Some id ->
  let u := req_user req in
  let db1 := (addToCart req db).2 in
  let db2 := (removeFromCart {| rm_user := u; rm_productId := s |} db1).2 in
  (forall its, (carts db !! u) = Some its -> (id ∉ map product its) ->
     Forall (fun it => is_Some (findProduct db (product it))) its ->
     carts db2 = carts db) /\
  ((carts db !! u) = None -> carts db2 = <[u := []]> (carts db)).
Proof.
  intros Hh Hacc Hcast u db1 db2. split.
  - intros its Hcart Hnot Hres. unfold db2, db1.
    rewrite (addToCart_append_run req s q id its db) by done. cbn [snd].
    rewrite removeFromCart_healthy by done. cbn [rm_user rm_productId carts set_carts].
    fold u. rewrite lookup_insert_eq. cbn zeta. cbn [snd carts set_carts].
    rewrite (filter_other _ _ id Hcast), List.filter_app, (filter_absent id its Hnot).
    cbn. rewrite bool_decide_eq_true_2 by done. cbn.
    rewrite app_nil_r, insert_insert_eq. by apply insert_id.
  - intros Hcart. unfold db2, db1.
    rewrite (addToCart_create_run req s q id db) by done. cbn [snd].
    rewrite removeFromCart_healthy by done. cbn [rm_user rm_productId carts set_carts].
    fold u. rewrite lookup_insert_eq. cbn zeta. cbn [snd carts set_carts].
    rewrite (filter_other _ _ id Hcast). cbn.
    rewrite bool_decide_eq_true_2 by done. cbn. apply insert_insert_eq.
Qed.

(** ** Failures of the store *)

(** X13. A failure of the store is never answered as a missing cart: when
    the first call to the store fails, [removeFromCart], and [addToCart]
    and [updateCart] on a valid payload, hand a store error to [next], and
    so does [removeFromCart] when the cart is read and the save fails; in
    each case no document has changed. *)
Theorem store_failure_is_thrown (req : CartRequest) (rm : RemoveRequest) s q fs db :
  accepts (req_body req) s q ->
  (faults db = true :: fs ->
   (addToCart req db).1 = Next StoreError /\ same_data db (addToCart req db).2 /\
   (updateCart req db).1 = Next StoreError /\ same_data db (updateCart req db).2 /\
   (removeFromCart rm db).1 = Next StoreError /\ same_data db (removeFromCart rm db).2) /\
  (faults db = false :: true :: fs -> is_Some (carts db !! rm_user rm) ->
   (removeFromCart rm db).1 = Next StoreError /\ same_data db (removeFromCart rm db).2).
Proof.
  intros Hacc. apply accepts_no_error in Hacc as [Herr Hitem]. split.
  - intros Hf.
    unfold addToCart, updateCart, removeFromCart, asyncHandler. cbn zeta.
    rewrite Herr, Hitem.
    unfold bind, Cart_findOne_populated, Cart_findOne, call. cbn. rewrite Hf.
    by repeat split.
  - intros Hf [its Hcart].
    unfold removeFromCart, asyncHandler. cbn zeta.
    unfold bind, Cart_findOne, call. cbn. rewrite Hf, Hcart. cbn.
    rewrite js_filter_plain. unfold Cart_save, call. cbn.
    by repeat split.
Qed.

(** ** [getCart] *)

(** X1. [getCart] only reads: whatever the store does, no document changes.
    On a healthy store it answers 200 in both cases: with [null] when the
    user has no cart, and otherwise with the cart whose items are the
    stored ones, each product resolved from the catalog or [null] when the
    catalog does not hold it. *)
Theorem getCart_reads_only (select : User -> User) u db :
  same_data db (getCart select u db).2 /\
  (healthy db ->
   ((carts db !! u) = None -> (getCart select u db).1 = Json 200 BNull) /\
   (forall its, (carts db !! u) = Some its ->
      exists cart,
        (getCart select u db).1 = Json 200 (BCart cart) /\
        map item_of_doc (cart_items cart) = its /\
        map item_product (cart_items cart)
        = map (fun it => Populated (product it)
                           (populate_category db <$> findProduct db (product it))) its)).
Proof.
  split.
  - unfold getCart, asyncHandler, bind, Cart_findOne_selected.
    destruct (call_cases (Read Carts)
                (fun db0 : Store =>
                   ((fun its => {| cart_user := Populated u (select <$> users db0 !! u);
                                   cart_items := map (populate_item true db0) its |})
                      <$> carts db0 !! u, db0)) db) as (db1 & Hs & [E|E]); rewrite E.
    + done.
    + cbn. by destruct (carts db1 !! u).
  - intros Hh. unfold getCart, asyncHandler, bind, Cart_findOne_selected.
    rewrite call_healthy by done. cbn. split.
    + by intros ->.
    + intros its ->. cbn. eexists. split; [reflexivity|]. cbn.
      split; [apply item_of_populated|]. by rewrite map_map.
Qed.

(** * Further properties of the catalog controller *)

(** ** Looking up, replacing and removing a product by its identifier *)

Lemma find_absent (i : ObjectId) (ps : list Product) :
  (i ∉ map _id ps) -> List.find (fun p => bool_decide (_id p = i)) ps = None.
Proof.
  induction ps as [|p ps IH]; cbn; [done|]. intros Hn.
  apply not_elem_of_cons in Hn as [Hne Hn].
  rewrite bool_decide_eq_false_2 by congruence. by apply IH.
Qed.

Lemma find_split (i : ObjectId) (l1 : list Product) p l2 :
  (i ∉ map _id l1) -> _id p = i ->
  List.find (fun p' => bool_decide (_id p' = i)) (l1 ++ p :: l2) = Some p.
Proof.
  induction l1 as [|p1 l1 IH]; cbn; intros Hn Hp.
  - by rewrite bool_decide_eq_true_2.
  - apply not_elem_of_cons in Hn as [Hne Hn].
    rewrite bool_decide_eq_false_2 by congruence. by apply IH.
Qed.

Lemma update_first_absent (i : ObjectId) f (ps : list Product) :
  (i ∉ map _id ps) -> update_first i f ps = ps.
Proof.
  induction ps as [|p ps IH]; cbn; [done|]. intros Hn.
  apply not_elem_of_cons in Hn as [Hne Hn].
  rewrite bool_decide_eq_false_2 by congruence. by rewrite IH.
Qed.

Lemma update_first_split (i : ObjectId) f (l1 : list Product) p l2 :
  (i ∉ map _id l1) -> _id p = i ->
  update_first i f (l1 ++ p :: l2) = l1 ++ f p :: l2.
Proof.
  induction l1 as [|p1 l1 IH]; cbn; intros Hn Hp.
  - by rewrite bool_decide_eq_true_2.
  - apply not_elem_of_cons in Hn as [Hne Hn].
    rewrite bool_decide_eq_false_2 by congruence. by rewrite IH.
Qed.

Lemma delete_first_absent (i : ObjectId) (ps : list Product) :
  (i ∉ map _id ps) -> delete_first i ps = ps.
Proof.
  induction ps as [|p ps IH]; cbn; [done|]. intros Hn.
  apply not_elem_of_cons in Hn as [Hne Hn].
  rewrite bool_decide_eq_false_2 by congruence. by rewrite IH.
Qed.

Lemma delete_first_split (i : ObjectId) (l1 : list Product) p l2 :
  (i ∉ map _id l1) -> _id p = i ->
  delete_first i (l1 ++ p :: l2) = l1 ++ l2.
Proof.
  induction l1 as [|p1 l1 IH]; cbn; intros Hn Hp.
  - by rewrite bool_decide_eq_true_2.
  - apply not_elem_of_cons in Hn as [Hne Hn].
    rewrite bool_decide_eq_false_2 by congruence. by rewrite IH.
Qed.

Lemma update_first_ids (i : ObjectId) f (ps : list Product) :
  (forall p, _id (f p) = _id p) -> map _id (update_first i f ps) = map _id ps.
Proof.
  intros Hf. induction ps as [|p ps IH]; cbn; [done|].
  destruct (bool_decide (_id p = i)); cbn; [by rewrite Hf|by rewrite IH].
Qed.

Lemma delete_first_ids_unique (i : ObjectId) (ps : list Product) :
  NoDup (map _id ps) -> NoDup (map _id (delete_first i ps)).
Proof.
  induction ps as [|p ps IH]; cbn; [done|]. intros Hn.
  apply NoDup_cons in Hn as [Hnot Hn].
  destruct (bool_decide (_id p = i)); cbn; [done|].
  apply NoDup_cons. split; [|by apply IH].
  intros Hin. apply Hnot. clear -Hin.
  induction ps as [|p' ps IH]; cbn in *; [done|].
  destruct (bool_decide (_id p' = i)); cbn in *.
  - by apply list_elem_of_further.
  - apply elem_of_cons in Hin as [->|Hin]; [apply list_elem_of_here|].
    apply list_elem_of_further. by apply IH.
Qed.

(** ** The product schema and the fields of the body *)

Lemma required_string_field (k msg : string) (v : option Js.value) :
  fst (Joi.validate_key coerce_number k
         (Joi.messages (Joi.required Joi.string) [ ("any.required", msg) ]) v) = [] ->
  exists str, v = Some (Js.Str str) /\
    snd (Joi.validate_key coerce_number k
           (Joi.messages (Joi.required Joi.string) [ ("any.required", msg) ]) v)
    = Some (Js.Str str).
Proof.
  destruct v as [[| | | |[|? ?]| |]|]; cbn; intros Hd; try discriminate Hd. eauto.
Qed.

Lemma required_number_field (k msg : string) (v : option Js.value) :
  fst (Joi.validate_key coerce_number k
         (Joi.messages (Joi.required Joi.number) [ ("any.required", msg) ]) v) = [] ->
  exists q,
    (v = Some (Js.Num q) \/
     exists str, v = Some (Js.Str str) /\ coerce_number str = Some (Joi.Converted q)) /\
    snd (Joi.validate_key coerce_number k
           (Joi.messages (Joi.required Joi.number) [ ("any.required", msg) ]) v)
    = Some (Js.Num q).
Proof.
  destruct v as [[| |q| |str| |]|]; cbn; try discriminate.
  - destruct (Js.is_safe q); cbn; [eauto|discriminate].
  - destruct (coerce_number str) as [[q|]|] eqn:Hc; cbn; try discriminate.
    destruct (Js.is_safe q); cbn; [eauto 10|discriminate].
Qed.

Lemma optional_string_field (k : string) (v : option Js.value) :
  fst (Joi.validate_key coerce_number k Joi.string v) = [] ->
  (v = None /\ snd (Joi.validate_key coerce_number k Joi.string v) = None) \/
  exists str, v = Some (Js.Str str) /\
              snd (Joi.validate_key coerce_number k Joi.string v) = Some (Js.Str str).
Proof.
  destruct v as [[| | | |[|? ?]| |]|]; cbn; intros Hd; try discriminate Hd; eauto.
Qed.

(** The fields read from a validated body are those of the body, numeric
    strings converted. *)
Lemma accepts_product_fields (body : Js.object) (input : ProductInput) :
  accepts_product body input ->
  field_string "name" body = Some (in_name input) /\
  field_string "description" body = Some (in_description input) /\
  field_number "price" body = Some (in_price input) /\
  field_string "category" body = Some (in_category input) /\
  field_number "stock" body = Some (in_stock input) /\
  field_string "image" body = in_image input /\
  field_string "brand" body = in_brand input.
Proof.
  unfold accepts_product, field_string, field_number.
  unfold Joi.validate, productSchema. cbn [Joi.validate_keys].
  pose proof (required_string_field "name" "Name is required" (Js.get "name" body)) as Hn.
  pose proof (required_string_field "description" "Description is required"
                (Js.get "description" body)) as Hd.
  pose proof (required_number_field "price" "Price is required" (Js.get "price" body)) as Hp.
  pose proof (required_string_field "category" "Category is required"
                (Js.get "category" body)) as Hc.
  pose proof (required_number_field "stock" "Stock is required" (Js.get "stock" body)) as Hs.
  pose proof (optional_string_field "image" (Js.get "image" body)) as Hi.
  pose proof (optional_string_field "brand" (Js.get "brand" body)) as Hb.
  repeat match goal with
         | |- context [Joi.validate_key ?c ?k ?sch ?v] =>
             destruct (Joi.validate_key c k sch v) as [? ?]
         end.
  cbn [fst snd Joi.details Joi.value] in *. intros [Hnil Hin].
  repeat match goal with
         | H : _ ++ _ = [] |- _ => apply app_eq_nil in H as [? ?]
         end.
  destruct Hn as (? & -> & ->); [done|]. destruct Hd as (? & -> & ->); [done|].
  destruct Hp as (? & Hp & ->); [done|]. destruct Hc as (? & -> & ->); [done|].
  destruct Hs as (? & Hs & ->); [done|].
  destruct Hi as [[-> ->]|(? & -> & ->)]; [done| |];
    (destruct Hb as [[-> ->]|(? & -> & ->)]; [done| |]);
    cbn in Hin; injection Hin as <-; cbn;
    destruct Hp as [->|(? & -> & ->)], Hs as [->|(? & -> & ->)]; by repeat split.
Qed.

(** ** The catalog handlers on a healthy store *)

Lemma accepts_product_no_error (body : Js.object) (input : ProductInput) :
  accepts_product body input ->
  has_error (Joi.validate coerce_number productSchema body) = false /\
  product_input_of (Joi.value (Joi.validate coerce_number productSchema body)) = Some input.
Proof. intros [Hd Hv]. unfold has_error. by rewrite Hd. Qed.

Lemma createProduct_run (new_id : ObjectId) (body : Js.object) input c db :
  healthy db -> accepts_product body input -> castObjectId (in_category input) = Some c ->
  let p := new_product new_id c input in
  createProduct new_id body db
  = (Json 201 (BProduct (populate_category db
                           <$> List.find (fun p' => bool_decide (_id p' = new_id))
                                         (products db ++ [ p ]))),
     set_products (products db ++ [ p ])
                  (log (Read Products) (log (Write Products) db))).
Proof.
  intros Hh Hacc Hcast p. apply accepts_product_no_error in Hacc as [Herr Hin].
  unfold createProduct, asyncHandler. cbn zeta. rewrite Herr, Hin.
  unfold bind, Product_create. rewrite Hcast, call_healthy by done. cbn [fst snd].
  unfold Product_findById. rewrite call_healthy by done. reflexivity.
Qed.

Lemma getProductById_run (id : string) i db :
  healthy db -> castObjectId id = Some i ->
  getProductById id db
  = (match findProduct db i with
     | Some p => Json 200 (BProduct (Some (populate_category db p)))
     | None => Json 404 (BError "Product not found")
     end, log (Read Products) db).
Proof.
  intros Hh Hcast. unfold getProductById, asyncHandler, bind, Product_findById_param.
  rewrite Hcast. unfold Product_findById. rewrite call_healthy by done.
  cbn -[findProduct]. change (findProduct (log _ db) i) with (findProduct db i).
  by destruct (findProduct db i).
Qed.

Lemma updateProduct_run (id : string) (body : Js.object) input i c db :
  healthy db -> accepts_product body input ->
  castObjectId id = Some i -> castObjectId (in_category input) = Some c ->
  let ps := update_first i (apply_update c input) (products db) in
  updateProduct id body db
  = (match List.find (fun p => bool_decide (_id p = i)) ps with
     | Some p => Json 200 (BProduct (Some (populate_category db p)))
     | None => Json 404 (BError "Product not found")
     end, set_products ps (log (Write Products) db)).
Proof.
  intros Hh Hacc Hid Hcat ps. apply accepts_product_no_error in Hacc as [Herr Hin].
  unfold updateProduct, asyncHandler. cbn zeta. rewrite Herr, Hin.
  unfold bind, Product_findByIdAndUpdate. rewrite Hid, Hcat, call_healthy by done.
  cbn. fold ps. unfold findProduct. cbn. by destruct (List.find _ ps).
Qed.

Lemma deleteProduct_run (id : string) i db :
  healthy db -> castObjectId id = Some i ->
  deleteProduct id db
  = (match findProduct db i with
     | Some _ => Json 200 (BMessage "Product removed")
     | None => Json 404 (BError "Product not found")
     end, set_products (delete_first i (products db)) (log (Write Products) db)).
Proof.
  intros Hh Hcast. unfold deleteProduct, asyncHandler, bind, Product_findByIdAndDelete.
  rewrite Hcast, call_healthy by done. cbn -[findProduct].
  change (findProduct (log _ db) i) with (findProduct db i).
  by destruct (findProduct db i).
Qed.

(** X14. On a healthy store, for a body that passes [productSchema], with a
    category that is an identifier and a fresh identifier for the new
    document, [createProduct] appends the product to the catalog, with the
    fields of the body, and answers 201 with it, its category resolved.
    The products already there and the carts are left as they were.
    Neither the price nor the stock is checked beyond being a number. *)
Theorem createProduct_creates (new_id : ObjectId) (body : Js.object) input c db :
  healthy db -> accepts_product body input -> castObjectId (in_category input) = Some c ->
  (new_id ∉ map _id (products db)) ->
  let p := new_product new_id c input in
  let out := createProduct new_id body db in
  out.1 = Json 201 (BProduct (Some (populate_category db p))) /\
  products out.2 = products db ++ [ p ] /\
  carts out.2 = carts db /\
  trace out.2 = trace db ++ [ Write Products; Read Products ] /\
  field_string "name" body = Some (name p) /\
  field_string "description" body = Some (description p) /\
  field_number "price" body = Some (price p) /\
  field_number "stock" body = Some (stock p) /\
  field_string "image" body = image p /\
  field_string "brand" body = brand p.
Proof.
  intros Hh Hacc Hcast Hfresh p out. unfold out.
  rewrite (createProduct_run new_id body input c db) by done. cbn [fst snd].
  fold p. rewrite (find_split new_id (products db) p []) by done.
  destruct (accepts_product_fields body input Hacc) as (Hn & Hd & Hp & _ & Hs & Hi & Hb).
  repeat split; try done. cbn. by rewrite <- app_assoc.
Qed.

(** X15. On a healthy store a product just created under a fresh identifier
    is found by [getProductById] under that identifier: the answer is 200
    with the document that [createProduct] answered. *)
Theorem createProduct_then_getProductById
  (new_id : ObjectId) (id : string) (body : Js.object) input c db :
  healthy db -> accepts_product body input -> castObjectId (in_category input) = Some c ->
  (new_id ∉ map _id (products db)) -> castObjectId id = Some new_id ->
  let created := createProduct new_id body db in
  exists doc,
    created.1 = Json 201 (BProduct (Some doc)) /\
    (getProductById id created.2).1 = Json 200 (BProduct (Some doc)).
Proof.
  intros Hh Hacc Hcast Hfresh Hid created. unfold created.
  rewrite (createProduct_run new_id body input c db) by done. cbn [fst snd].
  rewrite (getProductById_run id new_id) by done. cbn [fst].
  unfold findProduct. cbn [products set_products].
  rewrite (find_split new_id (products db) (new_product new_id c input) []) by done.
  eexists. split; reflexivity.
Qed.

(** X17. On a healthy store, for a body that passes [productSchema] and
    identifiers that are ones: when no product has the identifier,
    [updateProduct] answers 404 "Product not found" and creates nothing;
    otherwise it replaces the name, description, price, category and stock
    of the first product with the identifier, and the image and brand that
    the body gives, keeps its identifier and its place, leaves the other
    products as they were, and answers 200 with the product. *)
Theorem updateProduct_replaces (id : string) (body : Js.object) input i c db :
  healthy db -> accepts_product body input ->
  castObjectId id = Some i -> castObjectId (in_category input) = Some c ->
  let out := updateProduct id body db in
  ((i ∉ map _id (products db)) ->
   out.1 = Json 404 (BError "Product not found") /\ same_data db out.2) /\
  (forall l1 p l2, products db = l1 ++ p :: l2 -> (i ∉ map _id l1) -> _id p = i ->
     exists p',
       out.1 = Json 200 (BProduct (Some (populate_category db p'))) /\
       products out.2 = l1 ++ p' :: l2 /\
       _id p' = i /\ name p' = in_name input /\ description p' = in_description input /\
       price p' = in_price input /\ category p' = c /\ stock p' = in_stock input /\
       (forall x, in_image input = Some x -> image p' = Some x) /\
       (forall x, in_brand input = Some x -> brand p' = Some x)) /\
  carts out.2 = carts db.
Proof.
  intros Hh Hacc Hid Hcat out. unfold out.
  rewrite (updateProduct_run id body input i c db) by done.
  split; [|split; [|done]].
  - intros Habs. cbn zeta. rewrite update_first_absent by done.
    rewrite find_absent by done. by repeat split.
  - intros l1 p l2 Hps Hn Hp. cbn zeta. rewrite Hps.
    rewrite update_first_split by done.
    rewrite (find_split i l1 (apply_update c input p) l2) by done.
    exists (apply_update c input p). cbn [fst snd products set_products].
    repeat split; try done.
    + intros x Hx. cbn. by rewrite Hx.
    + intros x Hx. cbn. by rewrite Hx.
Qed.

(** X18. On a healthy store, for an identifier that is one: when no product
    has it, [deleteProduct] answers 404 "Product not found" and changes no
    document; otherwise it removes the first product with the identifier,
    keeps the others in their order, and answers 200.  The carts are left
    as they were, items that reference the product included.  When the
    identifier was that of one product only, [getProductById] and a second
    [deleteProduct] then answer 404. *)
Theorem deleteProduct_removes (id : string) i db :
  healthy db -> castObjectId id = Some i ->
  let out := deleteProduct id db in
  carts out.2 = carts db /\
  ((i ∉ map _id (products db)) ->
   out.1 = Json 404 (BError "Product not found") /\ same_data db out.2) /\
  (forall l1 p l2, products db = l1 ++ p :: l2 -> (i ∉ map _id l1) -> _id p = i ->
     out.1 = Json 200 (BMessage "Product removed") /\
     products out.2 = l1 ++ l2 /\
     ((i ∉ map _id l2) ->
      (getProductById id out.2).1 = Json 404 (BError "Product not found") /\
      (deleteProduct id out.2).1 = Json 404 (BError "Product not found"))).
Proof.
  intros Hh Hcast out. unfold out.
  rewrite (deleteProduct_run id i db) by done.
  split; [done|]. split.
  - intros Habs. unfold findProduct. rewrite find_absent by done.
    rewrite delete_first_absent by done. by repeat split.
  - intros l1 p l2 Hps Hn Hp. unfold findProduct. rewrite Hps.
    rewrite find_split, delete_first_split by done. cbn [fst snd].
    split; [done|]. split; [done|]. intros Hn2.
    assert (Habs : i ∉ map _id (l1 ++ l2)).
    { rewrite map_app. intros [Hin|Hin]%elem_of_app; [by apply Hn|by apply Hn2]. }
    rewrite (getProductById_run id i), (deleteProduct_run id i) by done.
    unfold findProduct. cbn [products set_products fst].
    by rewrite find_absent.
Qed.

(** ** The catalog handlers on any store *)

Ltac catalog_step :=
  match goal with
  | |- context [call ?op ?f ?d] =>
      let db1 := fresh "db1" in
      let Hs := fresh "Hs" in
      let E := fresh "E" in
      destruct (call_cases op f d) as (db1 & Hs & [E|E]); rewrite E; clear E;
      destruct Hs as (? & ? & ? & ?); cbn [fst snd]
  end.

Ltac catalog_step_in H :=
  match type of H with
  | context [call ?op ?f ?d] =>
      let db1 := fresh "db1" in
      let Hs := fresh "Hs" in
      let E := fresh "E" in
      destruct (call_cases op f d) as (db1 & Hs & [E|E]); rewrite E in H; clear E;
      destruct Hs as (? & ? & ? & ?); cbn in H
  end.

Ltac same_store H := injection H as <- <-; cbn; repeat split; auto; congruence.

(** What [createProduct] leaves in the store: the documents of before,
    with at most one product more, under the identifier given. *)
Lemma createProduct_store (new_id : ObjectId) (body : Js.object) db :
  let out := createProduct new_id body db in
  carts out.2 = carts db /\ categories out.2 = categories db /\
  users out.2 = users db /\
  (products out.2 = products db \/
   exists p, _id p = new_id /\ products out.2 = products db ++ [ p ]).
Proof.
  cbn zeta. destruct (createProduct new_id body db) as [r db'] eqn:H0. cbn [snd].
  unfold createProduct, asyncHandler in H0. cbn zeta in H0.
  destruct (has_error _); [same_store H0|].
  destruct (product_input_of _) as [input|]; [|same_store H0].
  unfold bind, Product_create in H0.
  destruct (castObjectId (in_category input)) as [c|]; [|same_store H0].
  catalog_step_in H0; [same_store H0|].
  unfold Product_findById in H0.
  catalog_step_in H0; injection H0 as <- <-; cbn in *;
    (repeat split; [congruence..|]); right; eexists;
    (split; [|etrans; [eassumption|]; by f_equal]); done.
Qed.

(** What [updateProduct] leaves in the store. *)
Lemma updateProduct_store (id : string) (body : Js.object) db :
  let out := updateProduct id body db in
  carts out.2 = carts db /\ categories out.2 = categories db /\
  users out.2 = users db /\
  (products out.2 = products db \/
   exists i c input, castObjectId id = Some i /\
     products out.2 = update_first i (apply_update c input) (products db)).
Proof.
  cbn zeta. destruct (updateProduct id body db) as [r db'] eqn:H0. cbn [snd].
  unfold updateProduct, asyncHandler in H0. cbn zeta in H0.
  destruct (has_error _); [same_store H0|].
  destruct (product_input_of _) as [input|]; [|same_store H0].
  unfold bind, Product_findByIdAndUpdate in H0.
  destruct (castObjectId id) as [i|] eqn:Hid; [|same_store H0].
  destruct (castObjectId (in_category input)) as [c|]; [|same_store H0].
  catalog_step_in H0; [same_store H0|].
  assert (Hdb : db' = set_products (update_first i (apply_update c input) (products db1)) db1).
  { destruct (List.find _ _); by injection H0 as <- <-. }
  subst db'. cbn. repeat split; try congruence.
  right. exists i, c, input. split; [done|]. by f_equal.
Qed.

(** What [deleteProduct] leaves in the store. *)
Lemma deleteProduct_store (id : string) db :
  let out := deleteProduct id db in
  carts out.2 = carts db /\ categories out.2 = categories db /\
  users out.2 = users db /\
  (products out.2 = products db \/
   exists i, castObjectId id = Some i /\
     products out.2 = delete_first i (products db)).
Proof.
  cbn zeta. destruct (deleteProduct id db) as [r db'] eqn:H0. cbn [snd].
  unfold deleteProduct, asyncHandler, bind, Product_findByIdAndDelete in H0.
  destruct (castObjectId id) as [i|] eqn:Hid; [|same_store H0].
  catalog_step_in H0; [same_store H0|].
  assert (Hdb : db' = set_products (delete_first i (products db1)) db1).
  { destruct (findProduct db1 i); by injection H0 as <- <-. }
  subst db'. cbn. repeat split; try congruence.
  right. exists i. split; [done|]. by f_equal.
Qed.

Lemma filter_sublist_of {A} (keep : A -> bool) (l : list A) :
  List.filter keep l `sublist_of` l.
Proof.
  induction l as [|x l IH]; cbn; [constructor|].
  destruct (keep x); by constructor.
Qed.

(** X16. A body that passes [productSchema] is not yet a product: the
    schema takes any string as category.  When the category is not an
    identifier, [createProduct] and [updateProduct] throw to [next], with
    the validation error of the model and the cast error of the query
    respectively, and the store is left untouched, its trace included.
    The same holds for a request parameter that is not an identifier in
    [getProductById], [updateProduct] and [deleteProduct]. *)
Theorem catalog_cast_failures (new_id : ObjectId) (id : string) (body : Js.object) input db :
  accepts_product body input ->
  (castObjectId (in_category input) = None ->
   createProduct new_id body db = (Next ValidationError, db) /\
   updateProduct id body db = (Next CastError, db)) /\
  (castObjectId id = None ->
   getProductById id db = (Next CastError, db) /\
   updateProduct id body db = (Next CastError, db) /\
   deleteProduct id db = (Next CastError, db)).
Proof.
  intros Hacc. apply accepts_product_no_error in Hacc as [Herr Hin]. split.
  - intros Hc. split.
    + unfold createProduct, asyncHandler. cbn zeta. rewrite Herr, Hin.
      unfold bind, Product_create. by rewrite Hc.
    + unfold updateProduct, asyncHandler. cbn zeta. rewrite Herr, Hin.
      unfold bind, Product_findByIdAndUpdate. rewrite Hc.
      by destruct (castObjectId id).
  - intros Hid. repeat split.
    + unfold getProductById, asyncHandler, bind, Product_findById_param.
      by rewrite Hid.
    + unfold updateProduct, asyncHandler. cbn zeta. rewrite Herr, Hin.
      unfold bind, Product_findByIdAndUpdate. by rewrite Hid.
    + unfold deleteProduct, asyncHandler, bind, Product_findByIdAndDelete.
      by rewrite Hid.
Qed.

(** The handler that [getProducts] runs is a [find] with some filter. *)
Lemma getProducts_handler (search : option string) (h : Store -> Response * Store) :
  getProducts search = Some h ->
  exists keep : Product -> bool, h = asyncHandler (
    bind (Product_find (Category := Category) (User := User) keep) (fun products =>
      ret (Json 200 (BProducts (length products) products)))).
Proof.
  unfold getProducts. cbn zeta. intros Hh. destruct search as [s|].
  - destruct (Js.truthy_string s).
    + destruct (Pcre.compile s) as [r|]; [|discriminate Hh].
      injection Hh as <-. by eexists.
    + injection Hh as <-. by eexists.
  - injection Hh as <-. by eexists.
Qed.

Lemma find_respond_cases (keep : Product -> bool) db :
  let h : Handler := asyncHandler (
    bind (Product_find keep) (fun products =>
      ret (Json 200 (BProducts (length products) products)))) in
  same_data db (h db).2 /\
  ((h db).1 = Next StoreError \/
   exists ps,
     ps `sublist_of` products db /\
     (h db).1 = Json 200 (BProducts (length ps) (map (populate_category db) ps))).
Proof.
  intros h. unfold h, asyncHandler, bind, Product_find.
  match goal with
  | |- context [call ?op ?f ?d] =>
      destruct (call_cases op f d) as (db1 & Hs & [E|E]); rewrite E; clear E
  end; cbn [fst snd]; (split; [done|]); [by left|right].
  destruct Hs as (? & Hp & Hc & ?). cbn.
  exists (List.filter keep (products db)). split; [apply filter_sublist_of|].
  rewrite Hp, !length_map.
  assert (Hpop : populate_category db1 = populate_category db).
  { unfold populate_category. by rewrite Hc. }
  by rewrite Hpop.
Qed.

(** X19. Whatever the search term (of the modelled fragment) and whatever
    the store does, [getProducts] changes no document, and it either
    throws the failure of the store to [next] or answers 200 with products
    of the catalog, each at most once and in the order of the catalog,
    their categories resolved, and with their number as [count]. *)
Theorem getProducts_lists_catalog (search : option string) (h : Handler) db :
  getProducts search = Some h ->
  same_data db (h db).2 /\
  ((h db).1 = Next StoreError \/
   exists ps,
     ps `sublist_of` products db /\
     (h db).1 = Json 200 (BProducts (length ps) (map (populate_category db) ps))).
Proof.
  intros (keep & ->)%getProducts_handler. apply find_respond_cases.
Qed.

Lemma getProductById_store (id : string) db : same_data db (getProductById id db).2.
Proof.
  destruct (getProductById id db) as [r db'] eqn:H0. cbn [snd].
  unfold getProductById, asyncHandler, bind, Product_findById_param in H0.
  destruct (castObjectId id) as [i|]; [|by injection H0 as <- <-].
  unfold Product_findById in H0. catalog_step_in H0; [by injection H0 as <- <-|].
  destruct (findProduct db1 i); by injection H0 as <- <-.
Qed.

Lemma getProductsByCategory_store (id : string) db :
  same_data db (getProductsByCategory id db).2.
Proof.
  destruct (getProductsByCategory id db) as [r db'] eqn:H0. cbn [snd].
  unfold getProductsByCategory, asyncHandler, bind, Product_find_category in H0.
  destruct (castObjectId id) as [i|]; [|by injection H0 as <- <-].
  unfold Product_find in H0. catalog_step_in H0; by injection H0 as <- <-.
Qed.

(** X20. No handler of the catalog writes a cart, a category or a user,
    whatever the request and whatever the store does; in particular
    [deleteProduct] leaves the cart items that reference the product. *)
Theorem catalog_handlers_keep_carts
  (new_id : ObjectId) (id : string) (body : Js.object) (search : option string) db :
  let kept (db' : Store) :=
    carts db' = carts db /\ categories db' = categories db /\ users db' = users db in
  kept (createProduct new_id body db).2 /\
  kept (getProductById id db).2 /\
  kept (updateProduct id body db).2 /\
  kept (deleteProduct id db).2 /\
  kept (getProductsByCategory id db).2 /\
  (forall h, getProducts search = Some h -> kept (h db).2).
Proof.
  intros kept. unfold kept. split_and!.
  - apply createProduct_store.
  - apply createProduct_store.
  - apply createProduct_store.
  - apply getProductById_store.
  - apply getProductById_store.
  - apply getProductById_store.
  - apply updateProduct_store.
  - apply updateProduct_store.
  - apply updateProduct_store.
  - apply deleteProduct_store.
  - apply deleteProduct_store.
  - apply deleteProduct_store.
  - apply getProductsByCategory_store.
  - apply getProductsByCategory_store.
  - apply getProductsByCategory_store.
  - intros h (keep & ->)%getProducts_handler.
    destruct (find_respond_cases keep db) as ((? & ? & ? & ?) & _). done.
Qed.

(** X21. The handlers of the catalog keep the identifiers of the products
    distinct, whatever the request and whatever the store does, provided
    [createProduct] is given an identifier that no product has:
    [updateProduct] never changes an identifier and [deleteProduct] only
    removes a product. *)
Theorem ids_unique_preserved (new_id : ObjectId) (id : string) (body : Js.object) db :
  ids_unique db ->
  ((new_id ∉ map _id (products db)) -> ids_unique (createProduct new_id body db).2) /\
  ids_unique (updateProduct id body db).2 /\
  ids_unique (deleteProduct id db).2.
Proof.
  unfold ids_unique. intros Hu. repeat split.
  - intros Hfresh.
    destruct (createProduct_store new_id body db) as (_ & _ & _ & [->|(p & Hp & ->)]);
      [done|].
    rewrite map_app. cbn. apply NoDup_app. split; [done|]. split.
    + intros x Hx ->%list_elem_of_singleton. by rewrite Hp in Hx.
    + apply NoDup_singleton.
  - destruct (updateProduct_store id body db)
      as (_ & _ & _ & [->|(i & c & input & _ & ->)]); [done|].
    by rewrite update_first_ids.
  - destruct (deleteProduct_store id db) as (_ & _ & _ & [->|(i & _ & ->)]); [done|].
    by apply delete_first_ids_unique.
Qed.

(** ** Keys that the schemas do not declare *)

Lemma unknown_key_detail coerce (sch : Joi.object_schema) (o : Js.object) k (v : Js.value) :
  In (k, v) o -> Joi.in_schema sch k = false ->
  In (String.append (Joi.label k) " is not allowed")
     (Joi.messages_of (Joi.validate coerce sch o)) /\
  has_error (Joi.validate coerce sch o) = true.
Proof.
  intros Hin Hk.
  assert (Hd : In (Joi.error Joi.string k "object.unknown")
                  (Joi.details (Joi.validate coerce sch o))).
  { unfold Joi.validate. destruct (Joi.validate_keys coerce sch o) as [es w].
    cbn [Joi.details]. apply in_or_app. right. unfold Joi.unknown_keys.
    apply in_flat_map. exists (k, v). split; [done|]. cbn [fst]. rewrite Hk. by left. }
  split.
  - unfold Joi.messages_of.
    change (String.append (Joi.label k) " is not allowed")
      with (Joi.message (Joi.error Joi.string k "object.unknown")).
    by apply in_map.
  - unfold has_error. by destruct (Joi.details _).
Qed.

(** X22. A body with a key that the schema does not declare is refused,
    whatever the other fields are: the cart handlers and the product
    handlers answer 400, the messages name the key as not allowed, and the
    store is not called. *)
Theorem unknown_key_is_rejected
  (k : string) (v : Js.value) (u new_id : ObjectId) (id : string) (body : Js.object) db :
  In (k, v) body ->
  let msg := String.append (Joi.label k) " is not allowed" in
  (Joi.in_schema cartItemSchema k = false ->
   exists ms, In msg ms /\
     addToCart {| req_user := u; req_body := body |} db = (Json 400 (BErrors ms), db) /\
     updateCart {| req_user := u; req_body := body |} db = (Json 400 (BErrors ms), db)) /\
  (Joi.in_schema productSchema k = false ->
   exists ms, In msg ms /\
     createProduct new_id body db = (Json 400 (BErrorList ms), db) /\
     updateProduct id body db = (Json 400 (BErrorList ms), db)).
Proof.
  intros Hin msg. split; intros Hk.
  - destruct (unknown_key_detail coerce_number cartItemSchema body k v Hin Hk) as [Hm He].
    eexists. split; [exact Hm|].
    unfold addToCart, updateCart, asyncHandler. cbn zeta. cbn [req_body].
    by rewrite He.
  - destruct (unknown_key_detail coerce_number productSchema body k v Hin Hk) as [Hm He].
    eexists. split; [exact Hm|].
    unfold createProduct, updateProduct, asyncHandler. cbn zeta.
    by rewrite He.
Qed.

End Properties.

(** * The properties on sample requests *)

Import Sample.

(** The scenario of the specification, on a product of the catalog: the
    first request creates the cart, the second adds to the quantity, the
    update replaces it, the removal empties the cart and keeps it. *)
Example cart_scenario :
  let request (q : Q) := {| req_user := alice; req_body := payload shoe_id q |} in
  let db1 := (addToCart (request 2%Q) catalog).2 in
  let db2 := (addToCart (request 3%Q) db1).2 in
  let db3 := (updateCart (request 1%Q) db2).2 in
  let db4 := (removeFromCart {| rm_user := alice; rm_productId := shoe_id |} db3).2 in
  (carts db1 !! alice) = Some [ item shoe_id 2 ] /\
  (carts db2 !! alice) = Some [ item shoe_id 5 ] /\
  (carts db3 !! alice) = Some [ item shoe_id 1 ] /\
  (carts db4 !! alice) = Some [] /\
  trace db4 = [ Read Carts; Write Carts; Read Carts; Write Carts;
                Read Carts; Write Carts; Read Carts; Write Carts ].
Proof. vm_compute. repeat split. Qed.

(** A quantity sent as a numeral is converted by Joi and accepted; the
    identifier of the product may be written in upper case. *)
Example numeric_string_quantity :
  (carts (addToCart {| req_user := alice;
                       req_body := [ ("product", Js.Str "65000000000000000000000C");
                                     ("quantity", Js.Str "12") ] |} catalog).2 !! alice)
  = Some [ item footwear 12 ].
Proof. vm_compute. reflexivity. Qed.

(** A product is created, listed, updated without its optional fields and
    deleted. *)
Example catalog_scenario :
  let cap := [ ("name", Js.Str "Cap"); ("description", Js.Str "A cap");
               ("price", Js.Num 9); ("category", Js.Str footwear);
               ("stock", Js.Num 4); ("brand", Js.Str "Acme") ] in
  let cap' := [ ("name", Js.Str "Cap"); ("description", Js.Str "A cap");
                ("price", Js.Num 7); ("category", Js.Str footwear);
                ("stock", Js.Num 4) ] in
  let db1 := (createProduct alice cap catalog).2 in
  let db2 := (updateProduct alice cap' db1).2 in
  let db3 := (deleteProduct alice db2).2 in
  map name (products db1) = [ "Shoe"; "Hat"; "Cap" ] /\
  (updateProduct alice cap' db1).1
  = Json 200 (BProduct (Some (populate_category catalog
              {| _id := alice; name := "Cap"; description := "A cap"; price := 7;
                 category := footwear; stock := 4; image := None;
                 brand := Some "Acme" |}))) /\
  (getProductById alice db2).1 = (updateProduct alice cap' db1).1 /\
  (deleteProduct alice db2).1 = Json 200 (BMessage "Product removed") /\
  products db3 = products catalog /\
  (deleteProduct alice db3).1 = Json 404 (BError "Product not found").
Proof. vm_compute. repeat split. Qed.

(** C1.  A user adds two shoes to the cart, the shoe is deleted from the
    catalog, and the user adds three more.  The second [addToCart] finds
    the cart, [populate] leaves [null] for the deleted product,
    [item.product.equals] throws, and the request ends in a [TypeError]
    with the cart unchanged: the quantities are not added.  [updateCart],
    which does not populate the cart, serves the same cart. *)
Theorem addToCart_fails_after_deleteProduct :
  let db1 := (addToCart {| req_user := alice; req_body := payload shoe_id 2 |} catalog).2 in
  let db2 := (deleteProduct shoe_id db1).2 in
  let again := addToCart {| req_user := alice; req_body := payload shoe_id 3 |} db2 in
  (carts db2 !! alice) = Some [ item shoe_id 2 ] /\
  healthy db2 /\
  again.1 = Next TypeError /\
  (carts again.2 !! alice) = Some [ item shoe_id 2 ] /\
  (carts (updateCart {| req_user := alice; req_body := payload shoe_id 3 |} db2).2 !! alice)
  = Some [ item shoe_id 3 ].
Proof. vm_compute. repeat split. Qed.

(** The same on a product that was never in the catalog: the first request
    creates the cart, the second one throws. *)
Lemma addToCart_twice_unknown_product :
  let once := addToCart {| req_user := alice; req_body := payload shoe_id 2 |} empty in
  let twice := addToCart {| req_user := alice; req_body := payload shoe_id 3 |} once.2 in
  once.1 = Json 200 (BCart {| cart_user := Unpopulated alice;
                              cart_items := [ plain_item (item shoe_id 2) ] |}) /\
  twice.1 = Next TypeError /\
  (carts twice.2 !! alice) = Some [ item shoe_id 2 ].
Proof. vm_compute. repeat split. Qed.

(** The cart of [alice] used below: two shoes and a hat. *)
Lemma sample_cart_unique :
  cart_unique (with_cart alice [ item shoe_id 2; item hat_id 1 ] catalog).
Proof.
  apply (cart_unique_insert catalog (with_cart alice [ item shoe_id 2; item hat_id 1 ] catalog)
           alice [ item shoe_id 2; item hat_id 1 ] eq_refl).
  - apply NoDup_cons. split; [|apply NoDup_singleton].
    intros Hin%list_elem_of_singleton. discriminate Hin.
  - by apply cart_unique_empty.
Defined.

Lemma sample_cart_positive :
  quantities_positive (with_cart alice [ item shoe_id 2; item hat_id 1 ] catalog).
Proof.
  apply (quantities_positive_insert catalog
           (with_cart alice [ item shoe_id 2; item hat_id 1 ] catalog)
           alice [ item shoe_id 2; item hat_id 1 ] eq_refl).
  - repeat constructor; apply positive_integer_of_checks; reflexivity.
  - by apply quantities_positive_empty.
Defined.

Lemma sample_payload_accepted (p : string) (q : Q) :
  p <> "" -> Js.is_safe q = true -> Js.is_integer q = true -> Js.is_positive q = true ->
  accepts (payload p q) p q.
Proof. apply accepts_payload. Defined.

Lemma cart_unique_preserved_witness :
  let db := with_cart alice [ item shoe_id 2; item hat_id 1 ] catalog in
  cart_unique db /\
  cart_unique (addToCart {| req_user := alice; req_body := payload shoe_id 3 |} db).2 /\
  cart_unique (updateCart {| req_user := alice; req_body := payload hat_id 4 |} db).2 /\
  cart_unique (removeFromCart {| rm_user := alice; rm_productId := shoe_id |} db).2.
Proof.
  intros db. split; [exact sample_cart_unique|].
  apply (cart_unique_preserved _ _ _ db). exact sample_cart_unique.
Defined.

Lemma updateCart_sets_quantity_witness :
  let db := with_cart alice [ item shoe_id 2; item hat_id 1 ] catalog in
  let req := {| req_user := alice; req_body := payload hat_id 4 |} in
  (healthy db /\ accepts (req_body req) hat_id 4 /\ castObjectId hat_id = Some hat_id) /\
  (carts (updateCart req db).2 !! alice) = Some [ item shoe_id 2; item hat_id 4 ] /\
  updateCart {| req_user := hat_id; req_body := payload hat_id 4 |} db
  = (Json 404 (BError "Cart not found"), log (Read Carts) db) /\
  updateCart {| req_user := alice; req_body := payload hat_id 4 |}
             (with_cart alice [ item shoe_id 2 ] catalog)
  = (Json 404 (BError "Item not found in cart"),
     log (Read Carts) (with_cart alice [ item shoe_id 2 ] catalog)).
Proof.
  intros db req.
  assert (Hacc : accepts (payload hat_id 4) hat_id 4)
    by (apply sample_payload_accepted; [discriminate|reflexivity..]).
  split; [split; [reflexivity|split; [exact Hacc|reflexivity]]|].
  split; [|split].
  - pose proof (updateCart_sets_quantity (driver := hex_driver)
                  req hat_id 4 hat_id db eq_refl Hacc eq_refl)
      as (_ & _ & Hset).
    assert (Hnot : hat_id ∉ map product [ item shoe_id 2 ])
      by (intros Hin%list_elem_of_singleton; discriminate Hin).
    pose proof (Hset [ item shoe_id 2 ] 1%Q [] eq_refl Hnot) as Hrun.
    cbn zeta in Hrun. rewrite Hrun. reflexivity.
  - pose proof (updateCart_sets_quantity (driver := hex_driver)
                  {| req_user := hat_id; req_body := payload hat_id 4 |}
                  hat_id 4 hat_id db eq_refl Hacc eq_refl)
      as (Hnone & _ & _).
    apply Hnone. reflexivity.
  - pose proof (updateCart_sets_quantity (driver := hex_driver)
                  {| req_user := alice; req_body := payload hat_id 4 |}
                  hat_id 4 hat_id (with_cart alice [ item shoe_id 2 ] catalog)
                  eq_refl Hacc eq_refl)
      as (_ & Habsent & _).
    apply (Habsent [ item shoe_id 2 ]); [reflexivity|].
    intros Hin%list_elem_of_singleton. discriminate Hin.
Defined.

Lemma cart_validation_witness :
  let db := with_cart alice [ item shoe_id 2; item hat_id 1 ] catalog in
  let bad := {| req_user := alice; req_body := [ ("quantity", Js.Num (-3 # 2)) ] |} in
  let good := {| req_user := alice; req_body := payload shoe_id 3 |} in
  (bad_payload (req_body bad) /\ quantities_positive db) /\
  addToCart bad db
  = (Json 400 (BErrors [ "Product ID is required"; "Quantity must be an integer";
                         "Quantity must be positive" ]), db) /\
  updateCart bad db
  = (Json 400 (BErrors [ "Product ID is required"; "Quantity must be an integer";
                         "Quantity must be positive" ]), db) /\
  (quantities_positive (addToCart good db).2 /\
   quantities_positive (updateCart good db).2) /\
  (carts catalog = ∅ /\
   quantities_positive
     (run_ops [ Add good; Add good; Update good;
                Remove {| rm_user := alice; rm_productId := hat_id |} ] catalog)).
Proof.
  intros db bad good.
  assert (Hbad : bad_payload (req_body bad)) by (left; reflexivity).
  split; [split; [exact Hbad|exact sample_cart_positive]|].
  destruct (cart_validation (driver := hex_driver) bad db) as (Hreject & _ & _ & _).
  destruct (Hreject Hbad) as (_ & Hadd & Hupd & _).
  destruct (cart_validation (driver := hex_driver) good db) as (_ & _ & Hkeep & _).
  destruct (cart_validation (driver := hex_driver) good catalog) as (_ & _ & _ & Hreach).
  split; [exact Hadd|]. split; [exact Hupd|].
  split; [exact (Hkeep sample_cart_positive)|].
  split; [reflexivity|]. exact (Hreach _ eq_refl).
Defined.

Lemma removeFromCart_idempotent_witness :
  let db := with_cart alice [ item shoe_id 2; item hat_id 1 ] catalog in
  let req := {| rm_user := alice; rm_productId := shoe_id |} in
  (healthy db /\ castObjectId shoe_id = Some shoe_id) /\
  (removeFromCart req db).1
  = Json 200 (BCart {| cart_user := Unpopulated alice;
                       cart_items := [ plain_item (item hat_id 1) ] |}) /\
  (removeFromCart req (removeFromCart req db).2).1 = (removeFromCart req db).1 /\
  same_data (removeFromCart req db).2 (removeFromCart req (removeFromCart req db).2).2.
Proof.
  intros db req. split; [split; reflexivity|].
  destruct (removeFromCart_idempotent (driver := hex_driver) req shoe_id db eq_refl eq_refl)
    as (_ & Hsome & Hsame & Hdata).
  destruct (Hsome [ item shoe_id 2; item hat_id 1 ] eq_refl) as (Hresp & _).
  split; [exact Hresp|]. split; [exact Hsame|exact Hdata].
Defined.

Lemma removeFromCart_removes_every_item_witness :
  let db := (updateCartForUser
               {| rp_userId := alice;
                  rp_items := [ item shoe_id 1; item hat_id 2; item shoe_id 3 ] |}
               catalog).2 in
  let req := {| rm_user := alice; rm_productId := shoe_id |} in
  (healthy db /\ castObjectId shoe_id = Some shoe_id /\
   (carts db !! alice) = Some [ item shoe_id 1; item hat_id 2; item shoe_id 3 ]) /\
  exists its',
    (removeFromCart req db).1
    = Json 200 (BCart {| cart_user := Unpopulated alice;
                         cart_items := map plain_item its' |}) /\
    (carts (removeFromCart req db).2 !! alice) = Some its' /\
    (shoe_id ∉ map product its') /\
    (forall it, In it its' <->
                In it [ item shoe_id 1; item hat_id 2; item shoe_id 3 ] /\
                product it <> shoe_id).
Proof.
  intros db req. split; [repeat split|].
  exact (removeFromCart_removes_every_item (driver := hex_driver) req shoe_id
           [ item shoe_id 1; item hat_id 2; item shoe_id 3 ] db eq_refl eq_refl eq_refl).
Defined.

Lemma updateCartForUser_replaces_witness :
  let db := with_cart alice [ item hat_id 1 ] catalog in
  let req := {| rp_userId := alice; rp_items := [ item shoe_id 1; item shoe_id (-2) ] |} in
  (healthy db /\ healthy catalog /\ castObjectId alice = Some alice) /\
  (carts (updateCartForUser req catalog).2 !! alice)
  = Some [ item shoe_id 1; item shoe_id (-2) ] /\
  (updateCartForUser req db).1
  = Json 200 (BCart {| cart_user := Unpopulated alice;
                       cart_items :=
                         [ {| item_product := Populated shoe_id (Some (plain_product shoe));
                              item_quantity := 1 |};
                           {| item_product := Populated shoe_id (Some (plain_product shoe));
                              item_quantity := -2 |} ] |}) /\
  (carts (updateCartForUser req db).2 !! alice)
  = Some [ item shoe_id 1; item shoe_id (-2) ] /\
  trace (updateCartForUser req db).2 = [ Write Carts ].
Proof.
  intros db req. split; [repeat split|].
  destruct (updateCartForUser_replaces (driver := hex_driver) req alice db eq_refl eq_refl)
    as (Hrun & Hcart & _ & _ & Htrace).
  destruct (updateCartForUser_replaces (driver := hex_driver) req alice catalog
              eq_refl eq_refl)
    as (Hrun0 & Hcart0 & _).
  split; [by rewrite Hrun0|].
  rewrite Hrun. split; [reflexivity|]. split; [exact Hcart|exact Htrace].
Defined.

Lemma product_validation_witness :
  let body := [ ("name", Js.Str "Shoe"); ("price", Js.Num 40) ] in
  missing_fields body <> [] /\
  createProduct shoe_id body catalog
  = (Json 400 (BErrorList [ "Description is required"; "Category is required";
                            "Stock is required" ]), catalog) /\
  updateProduct shoe_id body catalog
  = (Json 400 (BErrorList [ "Description is required"; "Category is required";
                            "Stock is required" ]), catalog).
Proof.
  intros body.
  assert (Hmiss : missing_fields body <> []) by discriminate.
  split; [exact Hmiss|].
  destruct (product_validation (driver := hex_driver) (Category := string) (User := string)
              shoe_id shoe_id body catalog Hmiss)
    as (Hcreate & Hupdate & _).
  split; [exact Hcreate|exact Hupdate].
Defined.

Lemma getProducts_literal_search_witness :
  (healthy catalog /\ no_metachar "sH" = true) /\
  (fun handler => handler catalog) <$> getProducts (Some "sH")
  = Some (Json 200 (BProducts 1 [ populate_category catalog shoe ]),
          log (Read Products) catalog).
Proof.
  split; [split; reflexivity|].
  assert (Hterm : forall term, Some "sH" = Some term -> no_metachar term = true)
    by (by intros term [= <-]).
  destruct (getProducts_literal_search (Some "sH") catalog
              eq_refl Hterm)
    as ((handler & Hfound & Hrun) & _).
  rewrite Hfound. cbn [fmap option_fmap option_map]. rewrite Hrun. reflexivity.
Defined.

Lemma getProductsByCategory_succeeds_witness :
  (healthy catalog /\ castObjectId footwear = Some footwear /\
   castObjectId hat_id = Some hat_id) /\
  getProductsByCategory footwear catalog
  = (Json 200 (BProducts 2 [ populate_category catalog shoe; populate_category catalog hat ]),
     log (Read Products) catalog) /\
  (getProductsByCategory hat_id catalog).1 = Json 200 (BProducts 0 []).
Proof.
  split; [repeat split|].
  destruct (getProductsByCategory_succeeds (driver := hex_driver) footwear catalog)
    as (_ & Hfound & _).
  destruct (getProductsByCategory_succeeds (driver := hex_driver) hat_id catalog)
    as (_ & Hnone & _).
  split.
  - exact (proj1 (Hfound footwear eq_refl eq_refl)).
  - exact (proj2 (Hnone hat_id eq_refl eq_refl) eq_refl).
Defined.

(** C7, as the specification words it, fails on a term with a
    metacharacter: the term "." is a pattern that matches any character, so
    the hat is found although its name does not contain a dot. *)
Lemma getProducts_dot_matches_every_name :
  (fun handler => (handler catalog).1) <$> getProducts (Some ".")
  = Some (Json 200 (BProducts 2 [ populate_category catalog shoe;
                                  populate_category catalog hat ])) /\
  ~ occurs_caseless "." (name hat).
Proof.
  split; [reflexivity|].
  intros Hocc. apply contains_caseless_spec in Hocc. discriminate Hocc.
Qed.

(** ** The properties beyond the claims, on the sample store *)

Lemma sample_cap_accepted : accepts_product cap_body cap_input.
Proof. split; reflexivity. Defined.

Lemma sample_loose_accepted : accepts_product loose_body loose_input.
Proof. split; reflexivity. Defined.

Lemma sample_resolved :
  Forall (fun it => is_Some (findProduct (with_cart alice [ item shoe_id 2 ] catalog)
                               (product it)))
         [ item shoe_id 2 ].
Proof. repeat constructor. by exists shoe. Defined.

Lemma sample_not_in_cart : hat_id ∉ map product [ item shoe_id 2 ].
Proof. intros Hin%list_elem_of_singleton. discriminate Hin. Defined.

Lemma sample_ids_unique : ids_unique catalog.
Proof.
  unfold ids_unique. apply NoDup_cons. split; [|apply NoDup_singleton].
  intros Hin%list_elem_of_singleton. discriminate Hin.
Defined.

Lemma sample_cap_fresh : cap_id ∉ map _id (products catalog).
Proof.
  intros [E|Hin]%elem_of_cons; [discriminate E|].
  apply list_elem_of_singleton in Hin. discriminate Hin.
Defined.

Lemma addToCart_creates_cart_witness :
  let req := {| req_user := alice; req_body := payload shoe_id 2 |} in
  (healthy catalog /\ accepts (req_body req) shoe_id 2 /\
   castObjectId shoe_id = Some shoe_id /\ (carts catalog !! alice) = None) /\
  (carts (addToCart req catalog).2 !! alice) = Some [ item shoe_id 2 ] /\
  trace (addToCart req catalog).2 = [ Read Carts; Write Carts ].
Proof.
  intros req.
  assert (Hacc : accepts (payload shoe_id 2) shoe_id 2)
    by (apply sample_payload_accepted; [discriminate|reflexivity..]).
  split; [split; [reflexivity|split; [exact Hacc|split; reflexivity]]|].
  pose proof (addToCart_creates_cart (driver := hex_driver)
                req shoe_id 2 shoe_id catalog eq_refl Hacc eq_refl eq_refl)
    as (_ & Hcart & _ & _ & Htrace).
  split; [exact Hcart|exact Htrace].
Defined.

Lemma addToCart_appends_witness :
  let db := with_cart alice [ item shoe_id 2 ] catalog in
  let req := {| req_user := alice; req_body := payload hat_id 1 |} in
  (healthy db /\ accepts (req_body req) hat_id 1 /\ castObjectId hat_id = Some hat_id /\
   (carts db !! alice) = Some [ item shoe_id 2 ]) /\
  (carts (addToCart req db).2 !! alice) = Some [ item shoe_id 2; item hat_id 1 ].
Proof.
  intros db req.
  assert (Hacc : accepts (payload hat_id 1) hat_id 1)
    by (apply sample_payload_accepted; [discriminate|reflexivity..]).
  split; [split; [reflexivity|split; [exact Hacc|split; reflexivity]]|].
  pose proof (addToCart_appends (driver := hex_driver)
                req hat_id 1 hat_id [ item shoe_id 2 ] db eq_refl Hacc eq_refl eq_refl
                sample_not_in_cart sample_resolved)
    as (_ & Hcart & _).
  exact Hcart.
Defined.


Lemma addToCart_blocked_by_missing_product_witness :
  let db := with_cart alice [ item shoe_id 2; item cap_id 1 ] catalog in
  let req := {| req_user := alice; req_body := payload hat_id 1 |} in
  (healthy db /\ accepts (req_body req) hat_id 1 /\ castObjectId hat_id = Some hat_id /\
   findProduct db cap_id = None) /\
  addToCart req db = (Next TypeError, log (Read Carts) db).
Proof.
  intros db req.
  assert (Hacc : accepts (payload hat_id 1) hat_id 1)
    by (apply sample_payload_accepted; [discriminate|reflexivity..]).
  split; [split; [reflexivity|split; [exact Hacc|split; reflexivity]]|].
  assert (Hres : Forall (fun it => is_Some (findProduct db (product it))) [ item shoe_id 2 ])
    by (repeat constructor; by exists shoe).
  exact (addToCart_blocked_by_missing_product (driver := hex_driver)
           req hat_id 1 hat_id [ item shoe_id 2 ] (item cap_id 1) [] db
           eq_refl Hacc eq_refl eq_refl sample_not_in_cart Hres eq_refl).
Defined.

Lemma carts_are_never_deleted_witness :
  let db := with_cart alice [ item shoe_id 2 ] catalog in
  let ops := [ Remove {| rm_user := alice; rm_productId := shoe_id |};
               Update {| req_user := alice; req_body := payload shoe_id 1 |} ] in
  is_Some (carts db !! alice) /\ is_Some (carts (run_ops ops db) !! alice).
Proof.
  intros db ops.
  assert (Hcart : is_Some (carts db !! alice)) by (by exists [ item shoe_id 2 ]).
  split; [exact Hcart|].
  exact (carts_are_never_deleted (driver := hex_driver) ops db alice Hcart).
Defined.

Lemma updateCartForUser_last_wins_witness :
  let r1 := {| rp_userId := alice; rp_items := [ item shoe_id 2; item shoe_id 1 ] |} in
  let r2 := {| rp_userId := alice; rp_items := [ item hat_id 1 ] |} in
  (healthy catalog /\ castObjectId alice = Some alice) /\
  (carts (updateCartForUser r2 (updateCartForUser r1 catalog).2).2 !! alice)
  = Some [ item hat_id 1 ].
Proof.
  intros r1 r2. split; [split; reflexivity|].
  pose proof (updateCartForUser_last_wins (driver := hex_driver)
                r1 r2 alice catalog eq_refl eq_refl eq_refl) as (_ & Hcart).
  exact Hcart.
Defined.

Lemma addToCart_then_removeFromCart_witness :
  let db := with_cart alice [ item shoe_id 2 ] catalog in
  let req := {| req_user := alice; req_body := payload hat_id 1 |} in
  (healthy db /\ accepts (req_body req) hat_id 1 /\ castObjectId hat_id = Some hat_id) /\
  carts (removeFromCart {| rm_user := alice; rm_productId := hat_id |}
                        (addToCart req db).2).2
  = carts db.
Proof.
  intros db req.
  assert (Hacc : accepts (payload hat_id 1) hat_id 1)
    by (apply sample_payload_accepted; [discriminate|reflexivity..]).
  split; [split; [reflexivity|split; [exact Hacc|reflexivity]]|].
  pose proof (addToCart_then_removeFromCart (driver := hex_driver)
                req hat_id 1 hat_id db eq_refl Hacc eq_refl) as (Hback & _).
  exact (Hback [ item shoe_id 2 ] eq_refl sample_not_in_cart sample_resolved).
Defined.

Lemma cart_unique_run_ops_witness :
  let db := with_cart alice [ item shoe_id 2; item hat_id 1 ] catalog in
  let ops := [ Add {| req_user := alice; req_body := payload shoe_id 3 |};
               Update {| req_user := alice; req_body := payload hat_id 4 |};
               Remove {| rm_user := alice; rm_productId := shoe_id |} ] in
  cart_unique db /\ cart_unique (run_ops ops db).
Proof.
  intros db ops. split; [exact sample_cart_unique|].
  exact (cart_unique_run_ops (driver := hex_driver) ops db sample_cart_unique).
Defined.

Lemma store_failure_is_thrown_witness :
  let db := set_faults [ true ] (with_cart alice [ item shoe_id 2 ] catalog) in
  let req := {| req_user := alice; req_body := payload shoe_id 1 |} in
  let rm := {| rm_user := alice; rm_productId := shoe_id |} in
  accepts (req_body req) shoe_id 1 /\
  (addToCart req db).1 = Next StoreError /\
  (updateCart req db).1 = Next StoreError /\
  (removeFromCart rm db).1 = Next StoreError /\
  carts (removeFromCart rm db).2 = carts db.
Proof.
  intros db req rm.
  assert (Hacc : accepts (payload shoe_id 1) shoe_id 1)
    by (apply sample_payload_accepted; [discriminate|reflexivity..]).
  split; [exact Hacc|].
  pose proof (store_failure_is_thrown (driver := hex_driver)
                req rm shoe_id 1 [] db Hacc) as (Hfirst & _).
  destruct (Hfirst eq_refl) as (Ha & _ & Hu & _ & Hr & Hsame & _).
  repeat split; assumption.
Defined.

Lemma createProduct_creates_witness :
  (healthy catalog /\ accepts_product cap_body cap_input /\
   castObjectId footwear = Some footwear /\ (cap_id ∉ map _id (products catalog))) /\
  products (createProduct cap_id cap_body catalog).2
  = [ shoe; hat; new_product cap_id footwear cap_input ] /\
  carts (createProduct cap_id cap_body catalog).2 = carts catalog.
Proof.
  split; [split; [reflexivity|split; [exact sample_cap_accepted|split;
            [reflexivity|exact sample_cap_fresh]]]|].
  pose proof (createProduct_creates (driver := hex_driver)
                cap_id cap_body cap_input footwear catalog
                eq_refl sample_cap_accepted eq_refl sample_cap_fresh)
    as (_ & Hps & Hcs & _).
  split; [exact Hps|exact Hcs].
Defined.

Lemma createProduct_then_getProductById_witness :
  (healthy catalog /\ accepts_product cap_body cap_input /\
   castObjectId cap_id = Some cap_id) /\
  exists doc,
    (createProduct cap_id cap_body catalog).1 = Json 201 (BProduct (Some doc)) /\
    (getProductById cap_id (createProduct cap_id cap_body catalog).2).1
    = Json 200 (BProduct (Some doc)).
Proof.
  split; [split; [reflexivity|split; [exact sample_cap_accepted|reflexivity]]|].
  exact (createProduct_then_getProductById (driver := hex_driver)
           cap_id cap_id cap_body cap_input footwear catalog
           eq_refl sample_cap_accepted eq_refl sample_cap_fresh eq_refl).
Defined.

Lemma catalog_cast_failures_witness :
  (accepts_product loose_body loose_input /\ castObjectId "caps" = None) /\
  createProduct cap_id loose_body catalog = (Next ValidationError, catalog) /\
  updateProduct shoe_id loose_body catalog = (Next CastError, catalog) /\
  deleteProduct "shoe" catalog = (Next CastError, catalog).
Proof.
  split; [split; [exact sample_loose_accepted|reflexivity]|].
  pose proof (catalog_cast_failures (driver := hex_driver)
                cap_id shoe_id loose_body loose_input catalog sample_loose_accepted)
    as (Hcat & _).
  pose proof (catalog_cast_failures (driver := hex_driver)
                cap_id "shoe" loose_body loose_input catalog sample_loose_accepted)
    as (_ & Hid).
  destruct (Hcat eq_refl) as (Hc & Hu).
  destruct (Hid eq_refl) as (_ & _ & Hd).
  repeat split; assumption.
Defined.

Lemma updateProduct_replaces_witness :
  (healthy catalog /\ accepts_product cap_body cap_input /\
   castObjectId hat_id = Some hat_id /\ castObjectId footwear = Some footwear) /\
  (exists p', products (updateProduct hat_id cap_body catalog).2 = [ shoe; p' ] /\
              _id p' = hat_id /\ name p' = "Cap" /\ brand p' = Some "Acme") /\
  (updateProduct cap_id cap_body catalog).1 = Json 404 (BError "Product not found").
Proof.
  split; [split; [reflexivity|split; [exact sample_cap_accepted|split; reflexivity]]|].
  pose proof (updateProduct_replaces (driver := hex_driver)
                hat_id cap_body cap_input hat_id footwear catalog
                eq_refl sample_cap_accepted eq_refl eq_refl) as (_ & Hfound & _).
  pose proof (updateProduct_replaces (driver := hex_driver)
                cap_id cap_body cap_input cap_id footwear catalog
                eq_refl sample_cap_accepted eq_refl eq_refl) as (Habsent & _ & _).
  assert (Hnot : hat_id ∉ map _id [ shoe ])
    by (intros Hin%list_elem_of_singleton; discriminate Hin).
  destruct (Hfound [ shoe ] hat [] eq_refl Hnot eq_refl)
    as (p' & _ & Hps & Hi & Hn & _ & _ & _ & _ & _ & Hb).
  split.
  - exists p'. split; [exact Hps|]. split; [exact Hi|]. split; [exact Hn|].
    exact (Hb "Acme" eq_refl).
  - exact (proj1 (Habsent sample_cap_fresh)).
Defined.

Lemma deleteProduct_removes_witness :
  (healthy catalog /\ castObjectId shoe_id = Some shoe_id) /\
  deleteProduct shoe_id catalog
  = (Json 200 (BMessage "Product removed"),
     set_products [ hat ] (log (Write Products) catalog)) /\
  (getProductById shoe_id (deleteProduct shoe_id catalog).2).1
  = Json 404 (BError "Product not found").
Proof.
  split; [split; reflexivity|].
  pose proof (deleteProduct_removes (driver := hex_driver)
                shoe_id shoe_id catalog eq_refl eq_refl) as (_ & _ & Hfound).
  assert (Hnil : shoe_id ∉ map _id ([] : list (Product (ObjectId := string))))
    by apply not_elem_of_nil.
  assert (Hrest : shoe_id ∉ map _id [ hat ])
    by (intros Hin%list_elem_of_singleton; discriminate Hin).
  destruct (Hfound [] shoe [ hat ] eq_refl Hnil eq_refl) as (_ & _ & Hthen).
  split; [reflexivity|exact (proj1 (Hthen Hrest))].
Defined.

Lemma getProducts_lists_catalog_witness :
  exists h,
    getProducts (Some "a.") = Some h /\
    same_data catalog (h catalog).2 /\
    ((h catalog).1 = Next StoreError \/
     exists ps, ps `sublist_of` [ shoe; hat ] /\
       (h catalog).1
       = Json 200 (BProducts (length ps) (map (populate_category catalog) ps))).
Proof.
  destruct (getProducts (Some "a.")) as [h|] eqn:E; [|discriminate E].
  exists h. split; [reflexivity|].
  exact (getProducts_lists_catalog (Some "a.") h catalog E).
Defined.

Lemma ids_unique_preserved_witness :
  ids_unique catalog /\
  ids_unique (createProduct cap_id cap_body catalog).2 /\
  ids_unique (updateProduct hat_id cap_body catalog).2 /\
  ids_unique (deleteProduct shoe_id catalog).2.
Proof.
  split; [exact sample_ids_unique|].
  pose proof (ids_unique_preserved (driver := hex_driver)
                cap_id hat_id cap_body catalog sample_ids_unique) as (Hc & Hu & _).
  pose proof (ids_unique_preserved (driver := hex_driver)
                cap_id shoe_id cap_body catalog sample_ids_unique) as (_ & _ & Hd).
  split; [exact (Hc sample_cap_fresh)|]. split; [exact Hu|exact Hd].
Defined.

Lemma getCart_reads_only_witness :
  let db := with_cart alice [ item shoe_id 2; item cap_id 1 ] catalog in
  healthy db /\
  (getCart (fun user => user) hat_id db).1 = Json 200 BNull /\
  exists cart,
    (getCart (fun user => user) alice db).1 = Json 200 (BCart cart) /\
    map item_product (cart_items cart)
    = [ Populated shoe_id (Some (populate_category db shoe)); Populated cap_id None ].
Proof.
  intros db. split; [reflexivity|].
  pose proof (getCart_reads_only (fun user => user) hat_id db)
    as (_ & Hnone).
  pose proof (getCart_reads_only (fun user => user) alice db)
    as (_ & Hsome).
  split; [exact (proj1 (Hnone eq_refl) eq_refl)|].
  destruct (proj2 (Hsome eq_refl) [ item shoe_id 2; item cap_id 1 ] eq_refl)
    as (cart & Hrun & _ & Hitems).
  exists cart. split; [exact Hrun|exact Hitems].
Defined.


Lemma unknown_key_is_rejected_witness :
  let body := payload shoe_id 2 ++ [ ("note", Js.Str "gift") ] in
  (In ("note", Js.Str "gift") body /\ Joi.in_schema cartItemSchema "note" = false) /\
  exists ms,
    In (Joi.label "note" +:+ " is not allowed") ms /\
    addToCart {| req_user := alice; req_body := body |} catalog
    = (Json 400 (BErrors ms), catalog).
Proof.
  intros body.
  assert (Hin : In ("note", Js.Str "gift") body) by (right; right; by left).
  split; [split; [exact Hin|reflexivity]|].
  pose proof (unknown_key_is_rejected (driver := hex_driver)
                "note" (Js.Str "gift") alice cap_id shoe_id body catalog Hin)
    as (Hcart & _).
  destruct (Hcart eq_refl) as (ms & Hmsg & Hadd & _).
  exists ms. split; [exact Hmsg|exact Hadd].
Defined.
